(** * ec2monitor_exporter: the collection and aggregation core

    A shallow embedding of [ec2monitor_exporter.py]: the filter compiler
    of [Ec2Conn.__init__], the tag check [Ec2Conn._check_tags], the
    label-set construction of [Ec2Conn.run], the queue drain
    [Ec2Conn.get], the constructor of [Ec2Collector] and its [collect]
    generator, followed by the properties of the specification.

    Python dictionaries that the program iterates over are association
    lists in their iteration order; the dictionary keyed by frozensets
    ([Ec2Collector._metrics]) is a [gmap] keyed by [gset]s.  Exceptions are
    values of [exn] returned on the left of a sum. *)

From Stdlib Require Import String Ascii List Bool Arith Lia ZArith.
From Stdlib Require Import Sorted Permutation.
From Equations Require Import Equations.
From stdpp Require Import gmap strings list fin_maps sets.

Local Open Scope string_scope.
Local Open Scope list_scope.

(** ** Exceptions and loosely typed configuration values *)

Inductive exn : Type :=
| ExporterError (msg : string)
| KeyError (key : string)
| ReError (pattern : string)
| TypeError
| Unmodelled (pattern : string).

(** [Unmodelled] is not an exception of the program.  It marks a pattern
    whose syntax lies outside the fragment of [re] modelled below: there
    the model follows the constructor no further and says nothing about
    what the program does. *)

(** A value of the YAML configuration where the program accepts either a
    string or a list of strings. *)
Inductive value : Type :=
| VStr (s : string)
| VList (l : list string).

(** ** Strings *)

Definition newline : ascii := Ascii.ascii_of_nat 10.

(** [str.lower] on a byte string: the letters A-Z.  [yaml.load] returns
    ASCII text as [str]; a name with other characters comes as [unicode],
    whose [lower] also maps letters outside ASCII, and is outside this
    model: properties that read [lower] ask for [ascii_name]. *)
Definition lower_ascii (c : ascii) : ascii :=
  let n := Ascii.nat_of_ascii c in
  if Nat.leb 65 n && Nat.leb n 90 then Ascii.ascii_of_nat (n + 32) else c.

Fixpoint lower (s : string) : string :=
  match s with
  | EmptyString => EmptyString
  | String c s' => String (lower_ascii c) (lower s')
  end.

Definition ascii_name (s : string) : bool :=
  forallb (fun c => Nat.ltb (Ascii.nat_of_ascii c) 128) (list_ascii_of_string s).

(** Iterating a Python string yields its characters as one-character
    strings. *)
Fixpoint chars (s : string) : list string :=
  match s with
  | EmptyString => []
  | String c s' => String c EmptyString :: chars s'
  end.

(** ** The regular expressions of [re.compile] and [pattern.match]

    The fragment of Python's [re] syntax that filter values are written
    in: literal characters, [.], [^], [$], the quantifiers [*], [+], [?]
    (and their lazy forms), alternation, groups and escaped
    metacharacters.  [parse] tells three cases apart: the pattern is in
    the fragment and compiles ([Compiled]); [re.compile] raises
    [re.error] on it ([Invalid]: unbalanced parentheses, nothing to
    repeat, multiple repeat, a trailing backslash); or the pattern leaves
    the fragment ([Outside]: character classes, counted repeats, class
    escapes, extension groups, and a quantifier over a group that can
    match the empty string, which Python 2 accepts or refuses by the
    widths of the group). *)

Module Re.

Inductive regex : Type :=
| Eps
| Chr (c : ascii)
| Any
| Bol
| Eol
| Cat (r1 r2 : regex)
| Alt (r1 r2 : regex)
| Star (r : regex).

(** [$] without MULTILINE: the end of the string, or just before a newline
    that ends the string. *)
Definition at_eol (s : string) : bool :=
  match s with
  | EmptyString => true
  | String c EmptyString => Ascii.eqb c newline
  | String _ _ => false
  end.

(** Backtracking matcher in continuation-passing style.  [at0] tells
    whether the position is the start of the subject; [k] receives the
    position reached. *)
Fixpoint accept (r : regex) (at0 : bool) (s : string)
    (k : bool -> string -> bool) {struct r} : bool :=
  match r with
  | Eps => k at0 s
  | Chr c =>
      match s with
      | String c' s' => if Ascii.eqb c c' then k false s' else false
      | EmptyString => false
      end
  | Any =>
      match s with
      | String c' s' => if Ascii.eqb c' newline then false else k false s'
      | EmptyString => false
      end
  | Bol => if at0 then k at0 s else false
  | Eol => if at_eol s then k at0 s else false
  | Cat r1 r2 => accept r1 at0 s (fun b t => accept r2 b t k)
  | Alt r1 r2 => accept r1 at0 s k || accept r2 at0 s k
  | Star r1 =>
      (fix loop (n : nat) (b : bool) (t : string) {struct n} : bool :=
         match n with
         | O => k b t
         | S n' =>
             accept r1 b t
               (fun b' t' =>
                  if Nat.ltb (String.length t') (String.length t)
                  then loop n' b' t' else false)
             || k b t
         end) (String.length s) at0 s
  end.

(** [pattern.match(s)]: a match that starts at the beginning of [s]; it
    need not reach the end. *)
Definition re_match (r : regex) (s : string) : bool :=
  accept r true s (fun _ _ => true).

Fixpoint nullable (r : regex) : bool :=
  match r with
  | Eps | Bol | Eol | Star _ => true
  | Chr _ | Any => false
  | Cat r1 r2 => nullable r1 && nullable r2
  | Alt r1 r2 => nullable r1 || nullable r2
  end.

Definition is_anchor (r : regex) : bool :=
  match r with
  | Bol | Eol => true
  | _ => false
  end.

(** The special characters of the pattern syntax. *)
Definition is_meta (c : ascii) : bool :=
  existsb (Ascii.eqb c)
    [".";"^";"$";"*";"+";"?";"{";"}";"[";"]";"\";"|";"(";")"]%char.

Definition is_quantifier (c : ascii) : bool :=
  existsb (Ascii.eqb c) ["*";"+";"?"]%char.

Definition is_unsupported (c : ascii) : bool :=
  existsb (Ascii.eqb c) ["{";"}";"[";"]"]%char.

(** One open group of the parser: the alternatives already closed (most
    recent first), the items of the current alternative (most recent
    first), and whether the last item carries a quantifier ([1]) or a lazy
    quantifier ([2]). *)
Record frame : Type := Frame {
  alts : list regex;
  seq : list regex;
  rep : nat
}.

Definition empty_frame : frame := Frame [] [] 0.

Definition mkcat (items : list regex) : regex := fold_right Cat Eps items.

Fixpoint mkalt (rs : list regex) : regex :=
  match rs with
  | [] => Eps
  | [r] => r
  | r :: rs' => Alt r (mkalt rs')
  end.

Definition close (f : frame) : regex :=
  mkalt (rev (mkcat (rev (seq f)) :: alts f)).

Definition push_item (r : regex) (f : frame) : frame :=
  Frame (alts f) (r :: seq f) 0.

Definition next_alt (f : frame) : frame :=
  Frame (mkcat (rev (seq f)) :: alts f) [] 0.

Definition atom (c : ascii) : regex :=
  if Ascii.eqb c "." then Any
  else if Ascii.eqb c "^" then Bol
  else if Ascii.eqb c "$" then Eol
  else Chr c.

Definition repeat_of (q : ascii) (r : regex) : regex :=
  if Ascii.eqb q "*" then Star r
  else if Ascii.eqb q "+" then Cat r (Star r)
  else Alt r Eps.

Inductive parsed (A : Type) : Type :=
| Compiled (a : A)
| Invalid
| Outside.

Arguments Compiled {A} a.
Arguments Invalid {A}.
Arguments Outside {A}.

Definition quantify (q : ascii) (f : frame) : parsed frame :=
  match rep f with
  | 0 =>
      match seq f with
      | [] => Invalid
      | r :: items =>
          if is_anchor r then Invalid
          else if nullable r then Outside
          else Compiled (Frame (alts f) (repeat_of q r :: items) 1)
      end
  | 1 => if Ascii.eqb q "?" then Compiled (Frame (alts f) (seq f) 2) else Invalid
  | _ => Invalid
  end.

(** [(?] opens an extension group. *)
Definition opens_extension (q : ascii) (cur : frame) (stack : list frame) : bool :=
  Ascii.eqb q "?"
  && match alts cur, seq cur, stack with
     | [], [], _ :: _ => true
     | _, _, _ => false
     end.

Fixpoint parse (s : string) (cur : frame) (stack : list frame)
    {struct s} : parsed regex :=
  match s with
  | EmptyString =>
      match stack with
      | [] => Compiled (close cur)
      | _ :: _ => Invalid
      end
  | String c s' =>
      if Ascii.eqb c "(" then parse s' empty_frame (cur :: stack)
      else if Ascii.eqb c ")" then
        match stack with
        | [] => Invalid
        | parent :: stack' => parse s' (push_item (close cur) parent) stack'
        end
      else if Ascii.eqb c "|" then parse s' (next_alt cur) stack
      else if is_quantifier c then
        if opens_extension c cur stack then Outside
        else
          match quantify c cur with
          | Compiled cur' => parse s' cur' stack
          | Invalid => Invalid
          | Outside => Outside
          end
      else if Ascii.eqb c "\" then
        match s' with
        | String e s'' =>
            if is_meta e then parse s'' (push_item (Chr e) cur) stack
            else Outside
        | EmptyString => Invalid
        end
      else if is_unsupported c then Outside
      else parse s' (push_item (atom c) cur) stack
  end.

(** The compiled pattern, when the pattern is in the fragment. *)
Definition re_compile (pattern : string) : option regex :=
  match parse pattern empty_frame [] with
  | Compiled r => Some r
  | Invalid | Outside => None
  end.

(** [re.compile] raises [re.error]. *)
Definition re_invalid (pattern : string) : bool :=
  match parse pattern empty_frame [] with
  | Invalid => true
  | Compiled _ | Outside => false
  end.

End Re.

(** ** Python dictionaries with an iteration order

    An association list stands for a dictionary together with one order
    in which it can be iterated.  The order [set] and [of_items] produce
    (an existing key keeps its place, a new key comes last) is a choice
    of the model: the dictionaries of the program iterate in hash order.
    A property may rely on a dictionary as a mapping, through [get], and
    on the order of an iteration only where the program's result does
    not depend on it. *)

Module PyDict.
Section Dict.
Context {V : Type}.

(** [d.get(k)] *)
Fixpoint get (k : string) (d : list (string * V)) : option V :=
  match d with
  | [] => None
  | (k', v) :: d' => if String.eqb k k' then Some v else get k d'
  end.

(** [d[k] = v]: an existing key keeps its place, a new key comes last. *)
Fixpoint set (k : string) (v : V) (d : list (string * V))
    : list (string * V) :=
  match d with
  | [] => [(k, v)]
  | (k', v') :: d' =>
      if String.eqb k k' then (k, v) :: d' else (k', v') :: set k v d'
  end.

(** [d[k]] *)
Definition getitem (k : string) (d : list (string * V)) : exn + V :=
  match get k d with
  | Some v => inr v
  | None => inl (KeyError k)
  end.

(** [dict(pairs)] *)
Definition of_items (items : list (string * V)) : list (string * V) :=
  fold_left (fun d kv => set (fst kv) (snd kv) d) items [].

Definition keys (d : list (string * V)) : list string := map fst d.

(** Two dictionaries are equal as mappings. *)
Definition same_mapping (d1 d2 : list (string * V)) : Prop :=
  forall k, get k d1 = get k d2.
End Dict.
End PyDict.

Abbreviation dict V := (list (string * V)).

(** ** [sorted]

    A stable insertion sort under the byte-wise order of Python 2 strings,
    with the [key=] function of [sorted]. *)

Section Sorting.
Context {A : Type} (key : A -> string).

Fixpoint insert_sorted (x : A) (l : list A) : list A :=
  match l with
  | [] => [x]
  | y :: l' =>
      if String.leb (key x) (key y) then x :: y :: l'
      else y :: insert_sorted x l'
  end.

Definition sorted (l : list A) : list A := fold_right insert_sorted [] l.
End Sorting.

(** ** Error monad for code that raises *)

Definition bind_exn {A B : Type} (m : exn + A) (f : A -> exn + B) : exn + B :=
  match m with
  | inl e => inl e
  | inr a => f a
  end.

Notation "'do' x <- m ; k" := (bind_exn m (fun x => k))
  (at level 10, x name, m at level 100, k at level 200).

(** ** The Fact Queue: [Queue.Queue] *)

(** A fact [(1, tags)]: a count and a label set. *)
Definition Fact : Type := Z * dict string.

Inductive queue_exn : Type := QueueEmpty.

Module Queue.
Definition put_nowait (x : Fact) (q : list Fact) : list Fact := q ++ [x].

Definition get_nowait (q : list Fact) : queue_exn + (Fact * list Fact) :=
  match q with
  | [] => inl QueueEmpty
  | x :: q' => inr (x, q')
  end.
End Queue.

(** ** Ec2Conn *)

Record filter_conf : Type := FilterConf {
  fc_tags : option (dict value);
  fc_status : option value
}.

Record Instance : Type := MkInstance {
  state : string;
  instance_type : option string;
  image_id : option string;
  tags : dict (option string)
}.

Record Ec2Conn : Type := MkEc2Conn {
  _started : bool;
  _canceled : bool;
  _zone : string;
  _region : string;
  _aws_key : value;
  _aws_secret : value;
  _tag_filters : dict Re.regex;
  _status_filter : Re.regex;
  _data_queue : list Fact
}.

(** [re.compile(pattern)] *)
Definition compile (pattern : string) : exn + Re.regex :=
  match Re.re_compile pattern with
  | Some r => inr r
  | None =>
      if Re.re_invalid pattern then inl (ReError pattern)
      else inl (Unmodelled pattern)
  end.

(** The pattern text built from a filter value: ["^"+value+"$"] for a
    string, ["^("+"|".join(value)+")$"] otherwise. *)
Definition pattern_of (v : value) : string :=
  match v with
  | VStr s => "^" +:+ s +:+ "$"
  | VList l => "^(" +:+ String.concat "|" l +:+ ")$"
  end.

(** The loop over [filter_conf['tags'].iteritems()].  The code first stores
    a placeholder under the lower-cased name and then the compiled
    pattern; only the second store is visible. *)
Fixpoint compile_tags (items : dict value) (filters : dict Re.regex)
    : exn + dict Re.regex :=
  match items with
  | [] => inr filters
  | (tag, v) :: items' =>
      do r <- compile (pattern_of v);
      compile_tags items' (PyDict.set (lower tag) r filters)
  end.

Definition compile_status (status : option value) : exn + Re.regex :=
  match status with
  | None => compile ".*"
  | Some v => compile (pattern_of v)
  end.

(** [if 'tags' in filter_conf: ...] *)
Definition compile_tag_filters (fc : filter_conf) : exn + dict Re.regex :=
  match fc_tags fc with
  | Some items => compile_tags items []
  | None => inr []
  end.

(** [Ec2Conn.__init__] *)
Definition Ec2Conn_init (zone region : string) (aws_key aws_secret : value)
    (fc : filter_conf) : exn + Ec2Conn :=
  do tag_filters <- compile_tag_filters fc;
  do status_filter <- compile_status (fc_status fc);
  inr (MkEc2Conn false false zone region aws_key aws_secret
         tag_filters status_filter []).

(** [Thread.start] *)
Definition start (self : Ec2Conn) : Ec2Conn :=
  MkEc2Conn true (_canceled self) (_zone self) (_region self)
    (_aws_key self) (_aws_secret self) (_tag_filters self)
    (_status_filter self) (_data_queue self).

Definition with_queue (q : list Fact) (self : Ec2Conn) : Ec2Conn :=
  MkEc2Conn (_started self) (_canceled self) (_zone self) (_region self)
    (_aws_key self) (_aws_secret self) (_tag_filters self)
    (_status_filter self) q.

(** [Ec2Conn.close] *)
Definition close (self : Ec2Conn) : Ec2Conn :=
  MkEc2Conn (_started self) true (_zone self) (_region self)
    (_aws_key self) (_aws_secret self) (_tag_filters self)
    (_status_filter self) (_data_queue self).

Definition inspect {A : Type} (x : A) : { y : A | x = y } :=
  exist _ x eq_refl.

(** The loop of [Ec2Conn.get]: [get_nowait] until [Queue.Empty], which is
    caught.  Returns the items yielded and the queue left behind. *)
Equations? drain (q : list Fact) : list Fact * list Fact
    by wf (length q) lt :=
  drain q with inspect (Queue.get_nowait q) := {
    | exist _ (inr (x, q')) Hget => let r := drain q' in (x :: fst r, snd r);
    | exist _ (inl QueueEmpty) Hget => ([], q) }.
Proof.
  destruct q; simpl in *; [discriminate|].
  inversion Hget; subst. simpl. lia.
Qed.

(** [Ec2Conn.get], consumed to exhaustion. *)
Definition get (self : Ec2Conn) : list Fact * Ec2Conn :=
  let r := drain (_data_queue self) in (fst r, with_queue (snd r) self).

(** [Ec2Conn._check_tags], over the items of [_tag_filters] in iteration
    order.  [filter.match(None)] raises [TypeError]. *)
Fixpoint check_items (items : dict Re.regex)
    (instance_tags : dict (option string)) : exn + bool :=
  match items with
  | [] => inr true
  | (tag, filter) :: items' =>
      match PyDict.get tag instance_tags with
      | None => inr false
      | Some None => inl TypeError
      | Some (Some v) =>
          if Re.re_match filter v then check_items items' instance_tags
          else inr false
      end
  end.

Definition _check_tags (self : Ec2Conn)
    (instance_tags : dict (option string)) : exn + bool :=
  check_items (_tag_filters self) instance_tags.

(** The label set of a matching instance (lines 134-138 of the source):
    the four built-in labels, overwritten by the instance's tags, without
    the entries whose value is [None]. *)
Definition drop_none (d : dict (option string)) : dict string :=
  PyDict.of_items
    (flat_map (fun kv => match snd kv with
                         | Some v => [(fst kv, v)]
                         | None => []
                         end) d).

Definition builtin_tags (self : Ec2Conn) (i : Instance) : dict (option string) :=
  [("zone", Some (_zone self)); ("region", Some (_region self));
   ("machine", instance_type i); ("ami", image_id i)].

Definition overlay (instance_tags base : dict (option string))
    : dict (option string) :=
  fold_left (fun d kv => PyDict.set (fst kv) (snd kv) d) instance_tags base.

Definition build_tags (self : Ec2Conn) (i : Instance) : dict string :=
  drop_none (overlay (tags i) (builtin_tags self i)).

(** What one iteration of the instance loop does to the worker. *)
Inductive outcome : Type :=
| Continue (self : Ec2Conn)
| Return (self : Ec2Conn)
| Raise (e : exn) (self : Ec2Conn).

(** The body of [for instance in instances] in [Ec2Conn.run]. *)
Definition process_instance (self : Ec2Conn) (i : Instance) : outcome :=
  if _canceled self then Return self
  else if negb (Re.re_match (_status_filter self) (state i)) then Continue self
  else
    match _check_tags self (tags i) with
    | inl e => Raise e self
    | inr false => Continue self
    | inr true =>
        Continue (with_queue
                    (Queue.put_nowait (1%Z, build_tags self i) (_data_queue self))
                    self)
    end.

Fixpoint run_instances (self : Ec2Conn) (instances : list Instance) : outcome :=
  match instances with
  | [] => Continue self
  | i :: rest =>
      match process_instance self i with
      | Continue self' => run_instances self' rest
      | other => other
      end
  end.

(** One cycle of the [while] loop of [Ec2Conn.run], given the reservations
    that [get_all_reservations] returned. *)
Definition poll_cycle (self : Ec2Conn) (reservations : list (list Instance))
    : outcome :=
  run_instances self (List.concat reservations).

(** ** [GaugeMetricFamily] of the Prometheus client *)

Definition Sample : Type := string * dict string * Z.

Record GaugeMetricFamily : Type := MkFamily {
  name : string;
  documentation : string;
  _labelnames : list string;
  samples : list Sample
}.

Definition GaugeMetricFamily_new (name documentation : string)
    (labels : list string) : GaugeMetricFamily :=
  MkFamily name documentation labels [].

(** [add_metric(labels, value)] appends the sample
    [(name, dict(zip(_labelnames, labels)), value)]. *)
Definition add_metric (labels : list string) (v : Z)
    (m : GaugeMetricFamily) : GaugeMetricFamily :=
  MkFamily (name m) (documentation m) (_labelnames m)
    (samples m ++ [(name m, PyDict.of_items (combine (_labelnames m) labels), v)]).

(** ** Ec2Collector *)

(** A provider entry of the configuration: its optional [filters] and its
    optional [access] block, which maps a zone name to a record of
    fields. *)
Record cloud_conf : Type := CloudConf {
  cc_filters : option filter_conf;
  cc_access : option (dict (dict value))
}.

Record Ec2Collector : Type := MkCollector {
  _conn : list Ec2Conn;
  _alive_metric : GaugeMetricFamily;
  _metrics : gmap (gset (string * string)) GaugeMetricFamily
}.

(** The constructor starts threads while it can still raise: a computation
    carries the threads started so far and returns a value or an
    exception. *)
Definition init_m (A : Type) : Type :=
  list Ec2Conn -> list Ec2Conn * (exn + A).

Definition ret {A : Type} (a : A) : init_m A := fun started => (started, inr a).

Definition raise {A : Type} (e : exn) : init_m A :=
  fun started => (started, inl e).

Definition lift {A : Type} (m : exn + A) : init_m A :=
  fun started => (started, m).

Definition bind {A B : Type} (m : init_m A) (f : A -> init_m B) : init_m B :=
  fun started =>
    match m started with
    | (started', inl e) => (started', inl e)
    | (started', inr a) => f a started'
    end.

Notation "'run' x <- m ; k" := (bind m (fun x => k))
  (at level 10, x name, m at level 100, k at level 200).

(** [conn.start()] *)
Definition spawn (conn : Ec2Conn) : init_m Ec2Conn :=
  fun started => (started ++ [start conn], inr (start conn)).

(** Iterating [conf[cloud]['access'][zone]['region']]. *)
Definition regions_of (v : value) : list string :=
  match v with
  | VList l => l
  | VStr s => chars s
  end.

Fixpoint init_regions (zone : string) (aws_key aws_secret : value)
    (fc : filter_conf) (regions : list string) (conns : list Ec2Conn)
    : init_m (list Ec2Conn) :=
  match regions with
  | [] => ret conns
  | region :: regions' =>
      run conn <- lift (Ec2Conn_init zone region aws_key aws_secret fc);
      run conn' <- spawn conn;
      init_regions zone aws_key aws_secret fc regions' (conns ++ [conn'])
  end.

Fixpoint init_zones (fc : filter_conf) (access : dict (dict value))
    (conns : list Ec2Conn) : init_m (list Ec2Conn) :=
  match access with
  | [] => ret conns
  | (zone, record) :: access' =>
      run aws_key <- lift (PyDict.getitem "key" record);
      run aws_secret <- lift (PyDict.getitem "pwd" record);
      run region <- lift (PyDict.getitem "region" record);
      run conns' <- init_regions zone aws_key aws_secret fc
                      (regions_of region) conns;
      init_zones fc access' conns'
  end.

Definition no_access (cloud : string) : exn :=
  ExporterError ("Invalid config for " +:+ cloud +:+ " config: no 'access' defined").

Definition unknown_cloud (cloud : string) : exn :=
  ExporterError ("Unknown cloud type '" +:+ cloud +:+ "' in config file").

(** [filter_conf], empty unless the entry has [filters]. *)
Definition filters_of (cc : cloud_conf) : filter_conf :=
  match cc_filters cc with
  | Some f => f
  | None => FilterConf None None
  end.

(** The body of [for cloud in conf.keys()]. *)
Definition init_cloud (cloud : string) (cc : cloud_conf)
    (conns : list Ec2Conn) : init_m (list Ec2Conn) :=
  let fc := filters_of cc in
  match cc_access cc with
  | None => raise (no_access cloud)
  | Some access =>
      if String.eqb cloud "aws" then init_zones fc access conns
      else raise (unknown_cloud cloud)
  end.

Fixpoint init_clouds (conf : dict cloud_conf) (conns : list Ec2Conn)
    : init_m (list Ec2Conn) :=
  match conf with
  | [] => ret conns
  | (cloud, cc) :: conf' =>
      run conns' <- init_cloud cloud cc conns;
      init_clouds conf' conns'
  end.

Definition alive_metric : GaugeMetricFamily :=
  GaugeMetricFamily_new "ec2monitor_exporter_alive"
    "Ec2 Monitor Exporter Status" ["host"].

(** [Ec2Collector.__init__]: the threads running when the constructor
    leaves, and the collector or the exception raised. *)
Definition Ec2Collector_init (conf : dict cloud_conf)
    : list Ec2Conn * (exn + Ec2Collector) :=
  match init_clouds conf [] [] with
  | (started, inr conns) => (started, inr (MkCollector conns alive_metric ∅))
  | (started, inl e) => (started, inl e)
  end.

(** [frozenset(sorted(tags.items(), key=lambda y: y[0]))] *)
Definition frozen_tags_of (tags : dict string) : gset (string * string) :=
  list_to_set (sorted fst tags).

(** [sorted([x[0] for x in frozen_tags])] *)
Definition label_names (frozen_tags : gset (string * string)) : list string :=
  sorted id (map fst (elements frozen_tags)).

(** [[x[1] for x in sorted(frozen_tags, key=lambda y: y[0])]] *)
Definition label_values (frozen_tags : gset (string * string)) : list string :=
  map snd (sorted fst (elements frozen_tags)).

Definition new_group (frozen_tags : gset (string * string)) : GaugeMetricFamily :=
  GaugeMetricFamily_new "ec2_number_instances" "Number of Aws EC2 instances"
    (label_names frozen_tags).

(** An object yielded by [collect]: the liveness family or the family
    stored in [_metrics] under a key. *)
Inductive family_ref : Type :=
| AliveRef
| GroupRef (frozen_tags : gset (string * string)).

(** What [collect] yields: the object and its content when it is
    yielded. *)
Definition yielded : Type := family_ref * GaugeMetricFamily.

(** The body of [for val, tags in conn.get()]. *)
Definition collect_fact
    (st : gmap (gset (string * string)) GaugeMetricFamily * list yielded)
    (fact : Fact) : gmap (gset (string * string)) GaugeMetricFamily * list yielded :=
  let '(metrics, out) := st in
  let '(val, tags) := fact in
  let frozen_tags := frozen_tags_of tags in
  let metrics1 :=
    match metrics !! frozen_tags with
    | None => <[frozen_tags := new_group frozen_tags]> metrics
    | Some _ => metrics
    end in
  let family :=
    match metrics1 !! frozen_tags with
    | Some m => m
    | None => new_group frozen_tags
    end in
  let family' := add_metric (label_values frozen_tags) val family in
  (<[frozen_tags := family']> metrics1, out ++ [(GroupRef frozen_tags, family')]).

(** The body of [for conn in self._conn]: drains the connection. *)
Fixpoint collect_conns (conns : list Ec2Conn)
    (st : gmap (gset (string * string)) GaugeMetricFamily * list yielded)
    : list Ec2Conn * (gmap (gset (string * string)) GaugeMetricFamily * list yielded) :=
  match conns with
  | [] => ([], st)
  | conn :: conns' =>
      let '(facts, conn') := get conn in
      let st' := fold_left collect_fact facts st in
      let '(rest, st'') := collect_conns conns' st' in
      (conn' :: rest, st'')
  end.

(** [Ec2Collector.collect], consumed to exhaustion; [host] is
    [socket.getfqdn()]. *)
Definition collect (host : string) (self : Ec2Collector)
    : list yielded * Ec2Collector :=
  let alive := add_metric [host] 1%Z (_alive_metric self) in
  let '(conns, (metrics, out)) :=
    collect_conns (_conn self) (_metrics self, [(AliveRef, alive)]) in
  (out, MkCollector conns alive metrics).

(** The facts a pass drains, in drain order. *)
Definition drained (self : Ec2Collector) : list Fact :=
  flat_map (fun conn => fst (get conn)) (_conn self).

(** The sample that a fact appends to its group. *)
Definition sample_of (fact : Fact) : Sample :=
  let key := frozen_tags_of (snd fact) in
  ("ec2_number_instances",
   PyDict.of_items (combine (label_names key) (label_values key)), fst fact).

(** The samples stored under a key. *)
Definition group_samples (metrics : gmap (gset (string * string)) GaugeMetricFamily)
    (key : gset (string * string)) : list Sample :=
  match metrics !! key with
  | Some m => samples m
  | None => []
  end.

(** ** Vocabulary of the properties *)

(** A string without special characters of the pattern syntax. *)
Definition literal (s : string) : bool :=
  forallb (fun c => negb (Re.is_meta c)) (list_ascii_of_string s).

(** The alternatives a filter value lists. *)
Definition alternatives (v : value) : list string :=
  match v with
  | VStr s => [s]
  | VList l => l
  end.

Definition literal_value (v : value) : bool :=
  match v with
  | VStr s => literal s
  | VList l => negb (Nat.eqb (List.length l) 0) && forallb literal l
  end.

(** Full anchoring as the specification words it: the matcher built from
    [v] accepts only the alternatives of [v]. *)
Definition anchored (v : value) : Prop :=
  forall r s,
    compile (pattern_of v) = inr r -> Re.re_match r s = true ->
    In s (alternatives v).

Definition lits (a : string) : list Re.regex :=
  map Re.Chr (list_ascii_of_string a).

Definition lit_re (a : string) : Re.regex := Re.mkcat (lits a).

(** [strip v s] is what follows the prefix [v] of [s]. *)
Fixpoint strip (v s : string) : option string :=
  match v with
  | EmptyString => Some s
  | String c v' =>
      match s with
      | String c' s' => if Ascii.eqb c c' then strip v' s' else None
      | EmptyString => None
      end
  end.

Definition exact_or_newline (a s : string) : bool :=
  match strip a s with
  | Some rest => Re.at_eol rest
  | None => false
  end.

(** The keys of an association list are pairwise distinct, as those of a
    dictionary are. *)
Fixpoint unique_keys {V : Type} (d : dict V) : bool :=
  match d with
  | [] => true
  | (k, _) :: d' =>
      match PyDict.get k d' with
      | None => unique_keys d'
      | Some _ => false
      end
  end.

(** The entries of a dictionary whose value is not [None]. *)
Definition some_items (d : dict (option string)) : dict string :=
  flat_map (fun kv => match snd kv with
                      | Some v => [(fst kv, v)]
                      | None => []
                      end) d.

(** The queue of the worker an outcome leaves. *)
Definition queued (o : outcome) : list Fact :=
  match o with
  | Continue self | Return self | Raise _ self => _data_queue self
  end.

(** The four labels every fact starts from. *)
Definition builtin_names : list string := ["zone"; "region"; "machine"; "ami"].

(** A worker of zone [europe], region [eu-west-1], built from
    [filter_conf]. *)
Definition conn_of (fc : filter_conf) : exn + Ec2Conn :=
  Ec2Conn_init "europe" "eu-west-1" (VStr "AKAIXXXXX") (VStr "XXXXX") fc.

(** The worker [conn_of (FilterConf None None)] yields. *)
Definition plain_conn : Ec2Conn :=
  MkEc2Conn false false "europe" "eu-west-1" (VStr "AKAIXXXXX") (VStr "XXXXX")
    [] (Re.Cat (Re.Star Re.Any) Re.Eps) [].

(** Two label sets hold the same name-value pairs. *)
Definition same_items (d1 d2 : dict string) : bool :=
  let included (a b : dict string) :=
    forallb (fun kv => match PyDict.get (fst kv) b with
                       | Some v => String.eqb v (snd kv)
                       | None => false
                       end) a in
  included d1 d2 && included d2 d1.

Definition leb_str (a b : string) : Prop := String.leb a b = true.

(** The family under a key, or the one [collect] creates for it. *)
Definition family_for (metrics : gmap (gset (string * string)) GaugeMetricFamily)
    (key : gset (string * string)) : GaugeMetricFamily :=
  match metrics !! key with
  | Some m => m
  | None => new_group key
  end.

(** The shape of the families that [collect] stores: the name of the
    instance gauge and the sorted label names of their key. *)
Definition family_ok (key : gset (string * string)) (m : GaugeMetricFamily) : bool :=
  String.eqb (name m) "ec2_number_instances"
  && bool_decide (_labelnames m = label_names key).

Definition wf_metrics (metrics : gmap (gset (string * string)) GaugeMetricFamily)
    : bool :=
  forallb (fun kv => family_ok (fst kv) (snd kv)) (map_to_list metrics).

(** The facts of a list that share a key. *)
Definition facts_of_key (key : gset (string * string)) (facts : list Fact)
    : list Fact :=
  List.filter (fun f => bool_decide (frozen_tags_of (snd f) = key)) facts.

(** C1 as the specification states it: after a pass the group of a key
    holds one sample, whose value is the number of drained facts with that
    key. *)
Definition counted (host : string) (self : Ec2Collector)
    (key : gset (string * string)) : Prop :=
  exists nm labels,
    group_samples (_metrics (snd (collect host self))) key
    = [(nm, labels, Z.of_nat (List.length (facts_of_key key (drained self))))].

(** C3 as the specification states it: after a pass the groups hold the
    samples of the facts drained in that pass and nothing else. *)
Definition pass_scoped (host : string) (self : Ec2Collector) : Prop :=
  forall key,
    group_samples (_metrics (snd (collect host self))) key
    = map sample_of (facts_of_key key (drained self)).

(** Every worker of the collector runs one poll cycle over the same
    reservations. *)
Definition worker_after (o : outcome) : Ec2Conn :=
  match o with
  | Continue self | Return self | Raise _ self => self
  end.

Definition poll_all (reservations : list (list Instance)) (self : Ec2Collector)
    : Ec2Collector :=
  MkCollector (map (fun w => worker_after (poll_cycle w reservations)) (_conn self))
    (_alive_metric self) (_metrics self).

(** The collector of one worker and no filter. *)
Definition one_worker : Ec2Collector :=
  MkCollector [start plain_conn] alive_metric ∅.

Definition prod_instance : Instance :=
  MkInstance "running" (Some "t2.micro") (Some "ami-1") [("env", Some "prod")].

Definition prod_labels : dict string :=
  [("zone", "europe"); ("region", "eu-west-1"); ("machine", "t2.micro");
   ("ami", "ami-1"); ("env", "prod")].



(** A zone record with the three fields the constructor reads. *)
Definition has_fields (record : dict value) : bool :=
  match PyDict.get "key" record, PyDict.get "pwd" record,
        PyDict.get "region" record with
  | Some _, Some _, Some _ => true
  | _, _, _ => false
  end.

(** The workers of one zone: one per region, started, with the zone's
    credentials and the provider's compiled filters. *)
Definition zone_workers (tag_filters : dict Re.regex) (status_filter : Re.regex)
    (zr : string * dict value) : list Ec2Conn :=
  match PyDict.get "key" (snd zr), PyDict.get "pwd" (snd zr),
        PyDict.get "region" (snd zr) with
  | Some aws_key, Some aws_secret, Some region =>
      map (fun r => MkEc2Conn true false (fst zr) r aws_key aws_secret
                      tag_filters status_filter [])
        (regions_of region)
  | _, _, _ => []
  end.

(** The access block of the specification's schema, and the one the
    constructor reads. *)
Definition access_with (secret_field : string) : dict (dict value) :=
  [("europe", [("key", VStr "AKAIXXXXX"); (secret_field, VStr "XXXXX");
               ("region", VList ["eu-west-1"])])].

(** ** Vocabulary of the further properties *)

(** The instance gets past the status filter and the tag check returns
    [True]. *)
Definition passes (self : Ec2Conn) (i : Instance) : bool :=
  Re.re_match (_status_filter self) (state i)
  && match _check_tags self (tags i) with
     | inr true => true
     | _ => false
     end.

(** The instance gets past the status filter and the tag check raises. *)
Definition raises (self : Ec2Conn) (i : Instance) : bool :=
  Re.re_match (_status_filter self) (state i)
  && match _check_tags self (tags i) with
     | inl _ => true
     | inr _ => false
     end.

(** The fact enqueued for a matching instance. *)
Definition fact_of (self : Ec2Conn) (i : Instance) : Fact :=
  (1%Z, build_tags self i).

(** [Ec2Conn.stop]: sets the flag like [close], then waits for the thread
    for at most three seconds. *)
Definition stop (self : Ec2Conn) : Ec2Conn :=
  MkEc2Conn (_started self) true (_zone self) (_region self)
    (_aws_key self) (_aws_secret self) (_tag_filters self)
    (_status_filter self) (_data_queue self).

(** [Ec2Collector.destroy]: the worker threads as it leaves them, and the
    collector, whose [_conn] is emptied. *)
Definition destroy (self : Ec2Collector) : list Ec2Conn * Ec2Collector :=
  let closed := map close (_conn self) in
  let stopped := map stop closed in
  (stopped, MkCollector [] (_alive_metric self) (_metrics self)).

(** The first of [key], [pwd], [region] that a zone record lacks. *)
Definition first_missing (record : dict value) : string :=
  match PyDict.get "key" record with
  | None => "key"
  | Some _ =>
      match PyDict.get "pwd" record with
      | None => "pwd"
      | Some _ => "region"
      end
  end.

(** A run of scrapes: before each one every worker polls the given
    reservations; each scrape is a [collect] under the given host name. *)
Definition scrapes (events : list (string * list (list Instance)))
    (self : Ec2Collector) : Ec2Collector :=
  fold_left (fun c ev => snd (collect (fst ev) (poll_all (snd ev) c))) events self.

(** The key of a fact. *)
Definition key_of (fact : Fact) : gset (string * string) :=
  frozen_tags_of (snd fact).

(** The configured tag filters under their stored names. *)
Definition lowered (items : dict value) : dict value :=
  map (fun kv => (lower (fst kv), snd kv)) items.

(** The worker [conn_of] yields for the tag filter [env: prod]. *)
Definition env_conn : Ec2Conn :=
  MkEc2Conn false false "europe" "eu-west-1" (VStr "AKAIXXXXX") (VStr "XXXXX")
    [("env", Re.mkcat (Re.Bol :: lits "prod" ++ [Re.Eol]))]
    (Re.Cat (Re.Star Re.Any) Re.Eps) [].

(** * Properties *)

(** ** The matcher on the patterns of the specification's scenarios *)

Example re_run_running :
  option_map (fun r => (Re.re_match r "run", Re.re_match r "running",
                        Re.re_match r "run.*",
                        Re.re_match r ("run" +:+ String newline "")))
    (Re.re_compile "^run$") = Some (true, false, false, true).
Proof. reflexivity. Qed.

Example re_alternation :
  option_map (fun r => map (Re.re_match r) ["a"; "b"; "c"; "ab"; ""])
    (Re.re_compile "^(a|b)$") = Some [true; true; false; false; false].
Proof. reflexivity. Qed.

Example re_absent_status :
  option_map (fun r => map (Re.re_match r) ["running"; ""; "x"])
    (Re.re_compile ".*") = Some [true; true; true].
Proof. reflexivity. Qed.

Example re_metacharacters :
  option_map (fun r => map (Re.re_match r) ["running"; "run"; "ru"])
    (Re.re_compile "^run.*$") = Some [true; true; false].
Proof. reflexivity. Qed.

(** A pattern that [re.compile] refuses raises [re.error]; one outside
    the modelled fragment is marked as such. *)
Example compile_outcomes :
  map compile ["^(run$"; "^*run$"; "^run**$"; "^[rR]un$"; "^(?i)run$"]
  = [inl (ReError "^(run$"); inl (ReError "^*run$"); inl (ReError "^run**$");
     inl (Unmodelled "^[rR]un$"); inl (Unmodelled "^(?i)run$")].
Proof. reflexivity. Qed.

(** ** Literal patterns *)

Module ReFacts.
Import Re.

Lemma parse_literal_char c s' cur stack :
  is_meta c = false ->
  parse (String c s') cur stack = parse s' (push_item (Chr c) cur) stack.
Proof.
  unfold is_meta. cbn [existsb]. intros H.
  repeat (apply orb_false_elim in H; destruct H as [? H]).
  cbn [parse]. unfold is_quantifier, is_unsupported, atom. cbn [existsb].
  repeat match goal with E : Ascii.eqb c _ = false |- _ => rewrite E; clear E end.
  reflexivity.
Qed.

Lemma parse_literal v : literal v = true ->
  forall cur, exists n, forall rest stack,
    parse (v +:+ rest) cur stack
    = parse rest (Frame (alts cur) (rev (lits v) ++ seq cur) n) stack.
Proof.
  unfold literal, lits. induction v as [|c v IH]; cbn [list_ascii_of_string forallb map rev]; intros Hl cur.
  - exists (rep cur). intros. destruct cur; reflexivity.
  - apply andb_prop in Hl as [Hc Hv]. apply negb_true_iff in Hc.
    destruct (IH Hv (push_item (Chr c) cur)) as [n Hn].
    exists n. intros rest stack. change (String c v +:+ rest) with (String c (v +:+ rest)).
    rewrite parse_literal_char by exact Hc. rewrite Hn. cbn [push_item alts seq].
    rewrite <- app_assoc. reflexivity.
Qed.

Lemma accept_lits v R : forall b s k,
  accept (fold_right Cat R (lits v)) b s k
  = match strip v s with
    | Some rest => accept R (match v with EmptyString => b | _ => false end) rest k
    | None => false
    end.
Proof.
  unfold lits. induction v as [|c v IH]; intros b s k; cbn [list_ascii_of_string map fold_right strip].
  - reflexivity.
  - cbn [accept]. destruct s as [|c' s]; [reflexivity|].
    destruct (Ascii.eqb c c'); [|reflexivity].
    rewrite IH. destruct (strip v s); [|reflexivity]. destruct v; reflexivity.
Qed.

Lemma accept_mkalt r rs b s k :
  accept (mkalt (r :: rs)) b s k = existsb (fun r' => accept r' b s k) (r :: rs).
Proof.
  revert r. induction rs as [|r2 rs IH]; intros r.
  - cbn. now rewrite orb_false_r.
  - change (mkalt (r :: r2 :: rs)) with (Alt r (mkalt (r2 :: rs))).
    cbn [accept existsb]. rewrite IH. reflexivity.
Qed.

Lemma accept_eol b s : accept (Cat Eol Eps) b s (fun _ _ => true) = at_eol s.
Proof. cbn. destruct (at_eol s); reflexivity. Qed.

Lemma strip_app a rest : strip a (a +:+ rest) = Some rest.
Proof.
  induction a as [|c a IH]; [reflexivity|].
  change (strip (String c a) (String c a +:+ rest))
    with (if Ascii.eqb c c then strip a (a +:+ rest) else None).
  rewrite Ascii.eqb_refl. exact IH.
Qed.

Lemma strip_Some a s rest : strip a s = Some rest -> s = a +:+ rest.
Proof.
  revert s. induction a as [|c a IH]; intros s H; cbn in H.
  - now inversion H.
  - destruct s as [|c' s]; [discriminate|].
    destruct (Ascii.eqb_spec c c'); [|discriminate]. subst.
    change (String c' a +:+ rest) with (String c' (a +:+ rest)).
    f_equal. now apply IH.
Qed.

Lemma at_eol_iff s : at_eol s = true <-> s = "" \/ s = String newline "".
Proof.
  destruct s as [|c [|c' s]]; cbn.
  - split; auto.
  - rewrite Ascii.eqb_eq. split; [intros ->; auto|intros [H|H]; [discriminate|now inversion H]].
  - split; [discriminate|intros [H|H]; discriminate].
Qed.

Lemma append_empty_r a : a +:+ "" = a.
Proof.
  induction a as [|c a IH]; [reflexivity|].
  change (String c a +:+ "") with (String c (a +:+ "")). now rewrite IH.
Qed.

Lemma exact_or_newline_iff a s :
  exact_or_newline a s = true <-> s = a \/ s = a +:+ String newline "".
Proof.
  unfold exact_or_newline. split.
  - destruct (strip a s) as [rest|] eqn:E; [|discriminate].
    apply strip_Some in E. subst. rewrite at_eol_iff.
    intros [-> | ->]; [left; apply append_empty_r | right; reflexivity].
  - intros [-> | ->].
    + pose proof (strip_app a "") as H. rewrite append_empty_r in H. now rewrite H.
    + now rewrite strip_app.
Qed.

Lemma append_assoc a b c : (a +:+ b) +:+ c = a +:+ (b +:+ c).
Proof.
  induction a as [|x a IH]; [reflexivity|].
  change (String x ((a +:+ b) +:+ c) = String x (a +:+ (b +:+ c))). now rewrite IH.
Qed.

Lemma rev_items (X : list regex) (first last : regex) :
  rev (last :: rev X ++ [first]) = first :: X ++ [last].
Proof. cbn [rev]. rewrite rev_app_distr, rev_involutive. reflexivity. Qed.

Lemma compile_single v : literal v = true ->
  re_compile ("^" +:+ v +:+ "$") = Some (mkcat (Bol :: lits v ++ [Eol])).
Proof.
  intros Hl. unfold re_compile.
  change ("^" +:+ v +:+ "$") with (String "^" (v +:+ "$")).
  change (parse (String "^" (v +:+ "$")) empty_frame [])
    with (parse (v +:+ "$") (push_item Bol empty_frame) []).
  destruct (parse_literal v Hl (push_item Bol empty_frame)) as [n Hn].
  rewrite Hn. cbn [parse Ascii.eqb Bool.eqb is_quantifier is_unsupported existsb orb atom
                   push_item alts seq empty_frame close mkalt rev app].
  rewrite <- (rev_items (lits v) Bol Eol). reflexivity.
Qed.

Lemma parse_alternatives l : forall a cur,
  forallb literal (a :: l) = true -> seq cur = [] ->
  exists f, close f = mkalt (rev (alts cur) ++ map lit_re (a :: l)) /\
    forall rest stack,
      parse (String.concat "|" (a :: l) +:+ rest) cur stack = parse rest f stack.
Proof.
  induction l as [|b l IH]; intros a cur Hl Hseq.
  - cbn in Hl. rewrite andb_true_r in Hl.
    destruct (parse_literal a Hl cur) as [n Hn].
    eexists; split; [|intros; cbn [String.concat]; apply Hn].
    unfold close. cbn [seq alts rev map]. rewrite Hseq, app_nil_r, rev_involutive.
    reflexivity.
  - cbn [forallb] in Hl. apply andb_prop in Hl as [Ha Hl].
    destruct (parse_literal a Ha cur) as [n Hn].
    destruct (IH b (next_alt (Frame (alts cur) (rev (lits a) ++ seq cur) n)) Hl eq_refl)
      as [f [Hf Hp]].
    exists f. split.
    + rewrite Hf. cbn [next_alt alts seq]. rewrite Hseq, app_nil_r, rev_involutive.
      cbn [rev map]. rewrite <- app_assoc. reflexivity.
    + intros rest stack.
      change (String.concat "|" (a :: b :: l))
        with (a +:+ "|" +:+ String.concat "|" (b :: l)).
      rewrite !append_assoc, Hn.
      change ("|" +:+ (String.concat "|" (b :: l) +:+ rest))
        with (String "|" (String.concat "|" (b :: l) +:+ rest)).
      cbn [parse Ascii.eqb Bool.eqb]. apply Hp.
Qed.

Lemma compile_list a l : forallb literal (a :: l) = true ->
  re_compile ("^(" +:+ String.concat "|" (a :: l) +:+ ")$")
  = Some (mkcat [Bol; mkalt (map lit_re (a :: l)); Eol]).
Proof.
  intros Hl. unfold re_compile.
  change ("^(" +:+ String.concat "|" (a :: l) +:+ ")$")
    with (String "^" (String "(" (String.concat "|" (a :: l) +:+ ")$"))).
  change (parse (String "^" (String "(" (String.concat "|" (a :: l) +:+ ")$"))) empty_frame [])
    with (parse (String.concat "|" (a :: l) +:+ ")$") empty_frame
            [push_item Bol empty_frame]).
  destruct (parse_alternatives l a empty_frame Hl eq_refl) as [f [Hf Hp]].
  rewrite Hp.
  cbn [parse Ascii.eqb Bool.eqb is_quantifier is_unsupported existsb orb atom].
  unfold close at 1. cbn [push_item seq alts empty_frame rev app mkalt mkcat fold_right].
  rewrite Hf. reflexivity.
Qed.
End ReFacts.

Lemma match_single v s :
  Re.re_match (Re.mkcat (Re.Bol :: lits v ++ [Re.Eol])) s = exact_or_newline v s.
Proof.
  unfold Re.re_match, Re.mkcat. cbn [fold_right Re.accept].
  rewrite fold_right_app. cbn [fold_right].
  rewrite ReFacts.accept_lits. unfold exact_or_newline.
  destruct (strip v s); [apply ReFacts.accept_eol | reflexivity].
Qed.

Lemma match_list a l s :
  Re.re_match (Re.mkcat [Re.Bol; Re.mkalt (map lit_re (a :: l)); Re.Eol]) s
  = existsb (fun a' => exact_or_newline a' s) (a :: l).
Proof.
  unfold Re.re_match, Re.mkcat. cbn [fold_right Re.accept].
  change (map lit_re (a :: l)) with (lit_re a :: map lit_re l).
  rewrite ReFacts.accept_mkalt.
  change (lit_re a :: map lit_re l) with (map lit_re (a :: l)).
  generalize (a :: l). intros alts. induction alts as [|x alts IH]; [reflexivity|].
  cbn [map existsb]. rewrite IH. f_equal.
  unfold lit_re, Re.mkcat. rewrite ReFacts.accept_lits. unfold exact_or_newline.
  destruct (strip x s); [|reflexivity].
  cbn [Re.accept]. destruct (Re.at_eol s0); reflexivity.
Qed.

(** C7: a filter value is a regular expression between [^] and [$], not a
    literal.  When the value, or each alternative of a non-empty list,
    has no special character, the pattern compiles and the matcher
    accepts exactly the value or one alternative, optionally followed by
    one final newline (which [$] lets pass); so [run] does not match
    [running]. *)
Theorem literal_filter_anchored (v : value) :
  literal_value v = true ->
  exists r, compile (pattern_of v) = inr r /\
    forall s, Re.re_match r s = true <->
              exists a, In a (alternatives v) /\ (s = a \/ s = a +:+ String newline "").
Proof.
  destruct v as [v|[|a l]]; cbn [literal_value alternatives pattern_of]; intros Hl.
  - eexists. split.
    + unfold compile. rewrite (ReFacts.compile_single v Hl). reflexivity.
    + intros s. rewrite match_single, ReFacts.exact_or_newline_iff.
      split; [intros H; exists v; split; [now left|exact H]|].
      intros [a [[<-|[]] H]]. exact H.
  - discriminate.
  - cbn in Hl. eexists. split.
    + unfold compile. rewrite (ReFacts.compile_list a l Hl). reflexivity.
    + intros s. rewrite match_list, existsb_exists.
      split; intros [x [Hx H]]; exists x; (split; [exact Hx|]);
        now apply ReFacts.exact_or_newline_iff.
Qed.

Lemma literal_filter_anchored_witness :
  exists r, compile (pattern_of (VStr "run")) = inr r /\
    forall s, Re.re_match r s = true <->
              exists a, In a ["run"] /\ (s = a \/ s = a +:+ String newline "").
Proof. apply (literal_filter_anchored (VStr "run")). reflexivity. Defined.

(** C7, as the specification states it, fails for a value with special
    characters: the pattern of [run|walk] is [^run|walk$], whose first
    alternative accepts [running]. *)
Lemma anchored_counterexample : ~ anchored (VStr "run|walk").
Proof.
  intros H.
  destruct (H (Re.Alt (Re.Cat Re.Bol (Re.mkcat (lits "run"))) (Re.mkcat (lits "walk" ++ [Re.Eol]))) "running") as [E|[]].
  - reflexivity.
  - reflexivity.
  - discriminate E.
Qed.
(** ** Dictionaries *)

Module PyDictFacts.
Import PyDict.
Section Facts.
Context {V : Type}.
Implicit Types (d items : list (string * V)) (k : string) (v : V).

Lemma get_set_eq k v d : get k (set k v d) = Some v.
Proof.
  induction d as [|[k' v'] d IH]; cbn [set get].
  - now rewrite String.eqb_refl.
  - destruct (String.eqb k k') eqn:E; cbn [get]; rewrite ?String.eqb_refl, ?E; auto.
Qed.

Lemma get_set_ne k k' v d : k <> k' -> get k' (set k v d) = get k' d.
Proof.
  intros Hne. induction d as [|[k0 v0] d IH]; cbn [set get].
  - destruct (String.eqb_spec k' k); congruence.
  - destruct (String.eqb_spec k k0); cbn [get].
    + subst. destruct (String.eqb_spec k' k0); congruence.
    + now rewrite IH.
Qed.

Lemma get_None_keys k d : get k d = None <-> ~ In k (keys d).
Proof.
  unfold keys. induction d as [|[k0 v0] d IH]; cbn [get map In fst].
  - tauto.
  - destruct (String.eqb_spec k k0).
    + subst. split; [discriminate|tauto].
    + rewrite IH. split; [intros H [E|E]; [congruence|tauto]|tauto].
Qed.

Lemma get_In k v d : get k d = Some v -> In (k, v) d.
Proof.
  induction d as [|[k0 v0] d IH]; cbn [get In]; [discriminate|].
  destruct (String.eqb_spec k k0); [intros [= ->]; subst; now left|auto].
Qed.

Lemma In_get k v d : List.NoDup (keys d) -> In (k, v) d -> get k d = Some v.
Proof.
  unfold keys. induction d as [|[k0 v0] d IH]; cbn [get In map fst]; [tauto|].
  intros Hnd [E|Hin].
  - inversion E; subst. now rewrite String.eqb_refl.
  - apply List.NoDup_cons_iff in Hnd as [Hk Hnd].
    destruct (String.eqb_spec k k0); [|auto].
    subst. exfalso. apply Hk. change k0 with (fst (k0, v)). now apply in_map.
Qed.

Lemma keys_set k v d :
  keys (set k v d) = match get k d with Some _ => keys d | None => keys d ++ [k] end.
Proof.
  unfold keys. induction d as [|[k0 v0] d IH]; cbn [set get map fst app]; [reflexivity|].
  destruct (String.eqb_spec k k0); cbn [map fst].
  - now subst.
  - rewrite IH. now destruct (get k d).
Qed.

Lemma NoDup_keys_set k v d : List.NoDup (keys d) -> List.NoDup (keys (set k v d)).
Proof.
  intros Hnd. rewrite keys_set. destruct (get k d) eqn:E; [assumption|].
  apply get_None_keys in E. apply NoDup_ListNoDup, NoDup_app.
  split; [now apply NoDup_ListNoDup|]. split.
  - intros x Hx Hx'. apply list_elem_of_In in Hx. apply list_elem_of_In in Hx'.
    destruct Hx' as [<-|[]]. contradiction.
  - apply NoDup_singleton.
Qed.

Lemma set_fresh k v d : get k d = None -> set k v d = d ++ [(k, v)].
Proof.
  induction d as [|[k0 v0] d IH]; cbn [set get app]; [reflexivity|].
  destruct (String.eqb_spec k k0); [discriminate|]. intros H. now rewrite IH.
Qed.

Lemma fold_set_fresh items : forall d,
  List.NoDup (keys (d ++ items)) ->
  fold_left (fun d kv => set (fst kv) (snd kv) d) items d = d ++ items.
Proof.
  induction items as [|[k v] items IH]; intros d Hnd; cbn [fold_left fst snd].
  - now rewrite app_nil_r.
  - assert (Hk : get k d = None).
    { apply get_None_keys. unfold keys in *. rewrite map_app in Hnd.
      cbn [map fst] in Hnd. apply List.NoDup_remove_2 in Hnd.
      intros Hin. apply Hnd. apply in_or_app. now left. }
    rewrite set_fresh by exact Hk.
    change (d ++ (k, v) :: items) with (d ++ [(k, v)] ++ items) in *.
    rewrite app_assoc in *. now apply IH.
Qed.

Lemma of_items_id items : List.NoDup (keys items) -> of_items items = items.
Proof. intros H. unfold of_items. now rewrite fold_set_fresh. Qed.

Lemma unique_keys_NoDup d : unique_keys d = true -> List.NoDup (keys d).
Proof.
  unfold keys. induction d as [|[k0 v0] d IH]; cbn [unique_keys map fst]; [constructor|].
  destruct (get k0 d) eqn:E; [discriminate|].
  intros H. constructor; [now apply get_None_keys in E | auto].
Qed.
End Facts.
End PyDictFacts.

Import PyDictFacts.

Lemma keys_overlay_NoDup its : forall base,
  List.NoDup (PyDict.keys base) -> List.NoDup (PyDict.keys (overlay its base)).
Proof.
  unfold overlay. induction its as [|[k v] its IH]; intros base Hb; cbn [fold_left]; [exact Hb|].
  apply IH. now apply NoDup_keys_set.
Qed.

Lemma get_overlay its : forall base k,
  List.NoDup (PyDict.keys its) ->
  PyDict.get k (overlay its base)
  = match PyDict.get k its with
    | Some v => Some v
    | None => PyDict.get k base
    end.
Proof.
  unfold overlay.
  induction its as [|[k0 v0] its IH]; intros base k Hnd; cbn [fold_left PyDict.get fst snd]; [reflexivity|].
  cbn [PyDict.keys map fst] in Hnd. apply List.NoDup_cons_iff in Hnd as [Hk0 Hnd].
  rewrite IH by exact Hnd.
  destruct (String.eqb_spec k k0) as [->|Hne].
  - apply get_None_keys in Hk0. rewrite Hk0. apply get_set_eq.
  - destruct (PyDict.get k its); [reflexivity|]. apply get_set_ne. congruence.
Qed.

Lemma some_items_keys d k : In k (PyDict.keys (some_items d)) -> In k (PyDict.keys d).
Proof.
  unfold PyDict.keys, some_items. induction d as [|[k0 [v0|]] d IH]; cbn [flat_map map fst snd app In]; tauto.
Qed.

Lemma some_items_NoDup d : List.NoDup (PyDict.keys d) -> List.NoDup (PyDict.keys (some_items d)).
Proof.
  unfold PyDict.keys. induction d as [|[k0 [v0|]] d IH]; cbn [some_items flat_map map fst snd app]; intros Hnd.
  - constructor.
  - apply List.NoDup_cons_iff in Hnd as [Hk Hnd]. constructor; [|now apply IH].
    intros Hin. apply Hk. now apply some_items_keys.
  - apply List.NoDup_cons_iff in Hnd as [Hk Hnd]. now apply IH.
Qed.

Lemma get_some_items d k : List.NoDup (PyDict.keys d) ->
  PyDict.get k (some_items d)
  = match PyDict.get k d with Some (Some v) => Some v | _ => None end.
Proof.
  unfold PyDict.keys. induction d as [|[k0 ov] d IH]; cbn [some_items flat_map map fst snd app PyDict.get]; intros Hnd; [reflexivity|].
  apply List.NoDup_cons_iff in Hnd as [Hk Hnd]. specialize (IH Hnd).
  destruct ov as [v0|]; cbn [app PyDict.get].
  - destruct (String.eqb k k0); [reflexivity|exact IH].
  - destruct (String.eqb_spec k k0) as [->|Hne]; [|exact IH].
    apply get_None_keys. intros Hin. apply Hk. now apply some_items_keys.
Qed.

Lemma get_drop_none d k : List.NoDup (PyDict.keys d) ->
  PyDict.get k (drop_none d)
  = match PyDict.get k d with Some (Some v) => Some v | _ => None end.
Proof.
  intros Hnd. unfold drop_none. fold (some_items d).
  rewrite of_items_id by now apply some_items_NoDup.
  now apply get_some_items.
Qed.

Lemma builtin_NoDup self i : List.NoDup (PyDict.keys (builtin_tags self i)).
Proof.
  cbn. repeat constructor; cbn; intuition discriminate.
Qed.

Lemma get_build_tags self i k : List.NoDup (PyDict.keys (tags i)) ->
  PyDict.get k (build_tags self i)
  = match PyDict.get k (tags i) with
    | Some ov => ov
    | None => match PyDict.get k (builtin_tags self i) with
              | Some ov => ov
              | None => None
              end
    end.
Proof.
  intros Hnd. unfold build_tags.
  rewrite get_drop_none by apply keys_overlay_NoDup, builtin_NoDup.
  rewrite get_overlay by exact Hnd.
  destruct (PyDict.get k (tags i)) as [[v|]|]; try reflexivity.
  destruct (PyDict.get k (builtin_tags self i)) as [[v|]|]; reflexivity.
Qed.

Lemma build_tags_NoDup self i : List.NoDup (PyDict.keys (build_tags self i)).
Proof.
  unfold build_tags, drop_none. fold (some_items (overlay (tags i) (builtin_tags self i))).
  assert (H : List.NoDup (PyDict.keys (some_items (overlay (tags i) (builtin_tags self i)))))
    by apply some_items_NoDup, keys_overlay_NoDup, builtin_NoDup.
  now rewrite of_items_id.
Qed.

Lemma check_items_true items instance_tags :
  check_items items instance_tags = inr true <->
  forall tag filter, In (tag, filter) items ->
    exists v, PyDict.get tag instance_tags = Some (Some v) /\ Re.re_match filter v = true.
Proof.
  induction items as [|[t f] items IH]; cbn [check_items In].
  - split; [intros _ ? ? []|reflexivity].
  - destruct (PyDict.get t instance_tags) as [[v|]|] eqn:E.
    + destruct (Re.re_match f v) eqn:M.
      * rewrite IH. split.
        -- intros H tag filter [[= <- <-]|Hin]; [eauto|auto].
        -- intros H tag filter Hin. apply H. now right.
      * split; [discriminate|]. intros H.
        destruct (H t f (or_introl eq_refl)) as [v' [E' M']]. congruence.
    + split; [discriminate|]. intros H.
      destruct (H t f (or_introl eq_refl)) as [v' [E' _]]. congruence.
    + split; [discriminate|]. intros H.
      destruct (H t f (or_introl eq_refl)) as [v' [E' _]]. congruence.
Qed.

Lemma drain_all q : drain q = (q, []).
Proof.
  induction q as [|x q IH]; simp drain; cbn.
  - reflexivity.
  - now rewrite IH.
Qed.

(** ** The tag check *)

(** What [_check_tags] decides: it returns [True] exactly when every stored
    filter name is, as it is stored, a key of the instance's tags whose
    value the filter matches. *)
Lemma check_tags_true_iff (self : Ec2Conn) (instance_tags : dict (option string)) :
  _check_tags self instance_tags = inr true <->
  forall tag filter, In (tag, filter) (_tag_filters self) ->
    exists v, PyDict.get tag instance_tags = Some (Some v)
              /\ Re.re_match filter v = true.
Proof. apply check_items_true. Qed.

(** The stored filter names are the lower-cased configured names. *)
Lemma compile_tags_keys items : forall filters filters',
  compile_tags items filters = inr filters' ->
  forall tag, In tag (PyDict.keys filters') ->
    In tag (PyDict.keys filters) \/ In tag (map (fun kv => lower (fst kv)) items).
Proof.
  induction items as [|[t v] items IH]; intros filters filters'; cbn [compile_tags map fst].
  - intros [= <-] tag H. now left.
  - destruct (compile (pattern_of v)) as [e|r]; cbn [bind_exn]; [discriminate|].
    intros H tag Hin. destruct (IH _ _ H tag Hin) as [Hk|Hk]; [|right; now right].
    rewrite keys_set in Hk. destruct (PyDict.get (lower t) filters).
    + now left.
    + apply in_app_or in Hk as [Hk|[<-|[]]]; [now left|right; now left].
Qed.

(** C2: the tag check compares names exactly, against the lower-cased
    configured name.  A filter on [env] rejects an instance tagged [Env];
    a filter configured as [Env] rejects the same instance too, and accepts
    one tagged [env]. *)
Theorem check_tags_case_sensitive :
  (do self <- conn_of (FilterConf (Some [("env", VStr "prod")]) None);
   _check_tags self [("Env", Some "prod")]) = inr false
  /\ (do self <- conn_of (FilterConf (Some [("Env", VStr "prod")]) None);
      _check_tags self [("Env", Some "prod")]) = inr false
  /\ (do self <- conn_of (FilterConf (Some [("Env", VStr "prod")]) None);
      _check_tags self [("env", Some "prod")]) = inr true.
Proof. repeat split; reflexivity. Qed.

(** ** The label set of a fact *)

Ltac passes_filters :=
  match goal with
  | Hc : _canceled ?s = false, Hs : Re.re_match _ _ = true,
    Ht : _check_tags ?s _ = inr true |- _ =>
      unfold process_instance; rewrite Hc, Hs, Ht; cbn [negb]
  end.

(** C4: for an instance that passes both filters the worker enqueues one
    fact of count 1.  Its label set holds every instance tag whose value
    is non-null, and [zone], [region], [machine] and [ami] with the
    worker's zone and region and the instance's type and image id (or
    with the value of an instance tag of that name); every label whose
    value is null is left out, the [machine] and [ami] labels of an
    instance without type or image id among them. *)
Theorem fact_label_set (self : Ec2Conn) (i : Instance) :
  unique_keys (tags i) = true ->
  _canceled self = false ->
  Re.re_match (_status_filter self) (state i) = true ->
  _check_tags self (tags i) = inr true ->
  exists labels,
    process_instance self i
    = Continue (with_queue (_data_queue self ++ [(1%Z, labels)]) self)
    /\ (forall t v, PyDict.get t (tags i) = Some (Some v) ->
                    PyDict.get t labels = Some v)
    /\ (forall t, PyDict.get t (tags i) = Some None -> PyDict.get t labels = None)
    /\ (PyDict.get "zone" (tags i) = None ->
        PyDict.get "zone" labels = Some (_zone self))
    /\ (PyDict.get "region" (tags i) = None ->
        PyDict.get "region" labels = Some (_region self))
    /\ (PyDict.get "machine" (tags i) = None ->
        PyDict.get "machine" labels = instance_type i)
    /\ (PyDict.get "ami" (tags i) = None ->
        PyDict.get "ami" labels = image_id i)
    /\ (forall t, PyDict.get t (tags i) = None -> ~ In t builtin_names ->
                  PyDict.get t labels = None).
Proof.
  intros Hu Hc Hs Ht. apply unique_keys_NoDup in Hu.
  exists (build_tags self i). split; [passes_filters; reflexivity|].
  assert (Hget := fun k => get_build_tags self i k Hu).
  split; [intros t v H; now rewrite Hget, H|].
  split; [intros t H; now rewrite Hget, H|].
  split; [intros H; now rewrite Hget, H|].
  split; [intros H; now rewrite Hget, H|].
  split; [intros H; now rewrite Hget, H|].
  split; [intros H; now rewrite Hget, H|].
  intros t H Hn. rewrite Hget, H. cbn [builtin_tags PyDict.get].
  repeat match goal with
         | |- context [String.eqb t ?k] =>
             destruct (String.eqb_spec t k);
             [exfalso; apply Hn; subst; cbn; tauto|]
         end.
  reflexivity.
Qed.

Lemma fact_label_set_witness :
  exists labels,
    process_instance plain_conn
      (MkInstance "running" (Some "t2.micro") None [("env", Some "prod"); ("note", None)])
    = Continue (with_queue ([] ++ [(1%Z, labels)]) plain_conn)
    /\ PyDict.get "env" labels = Some "prod"
    /\ PyDict.get "note" labels = None
    /\ PyDict.get "machine" labels = Some "t2.micro"
    /\ PyDict.get "ami" labels = None.
Proof.
  destruct (fact_label_set plain_conn
              (MkInstance "running" (Some "t2.micro") None
                 [("env", Some "prod"); ("note", None)]))
    as [labels [Hq [Htag [Hnull [_ [_ [Hm [Ha _]]]]]]]];
    [reflexivity | reflexivity | reflexivity | reflexivity |].
  exists labels. split; [exact Hq|]. split; [apply Htag; reflexivity|].
  split; [apply Hnull; reflexivity|]. split; [apply Hm; reflexivity|].
  apply Ha; reflexivity.
Defined.

(** An instance without a type passes the (absent) filters; its fact has
    no [machine] label. *)
Example fact_without_type :
  conn_of (FilterConf None None) = inr plain_conn
  /\ exists labels,
       queued (process_instance plain_conn
                 (MkInstance "running" None (Some "ami-1") []))
       = [(1%Z, labels)]
       /\ PyDict.get "machine" labels = None.
Proof. split; [reflexivity|]. eexists. split; reflexivity. Qed.

(** C10: an instance tag named like a built-in label takes the label's
    place in the fact: the label carries the tag's value, and is absent
    when the tag's value is null. *)
Theorem tag_overrides_builtin (self : Ec2Conn) (i : Instance)
    (t : string) (ov : option string) :
  unique_keys (tags i) = true ->
  _canceled self = false ->
  Re.re_match (_status_filter self) (state i) = true ->
  _check_tags self (tags i) = inr true ->
  In t builtin_names ->
  PyDict.get t (tags i) = Some ov ->
  exists labels,
    process_instance self i
    = Continue (with_queue (_data_queue self ++ [(1%Z, labels)]) self)
    /\ PyDict.get t labels = ov.
Proof.
  intros Hu Hc Hs Ht _ Htag. apply unique_keys_NoDup in Hu.
  exists (build_tags self i). split; [passes_filters; reflexivity|].
  rewrite get_build_tags by exact Hu. now rewrite Htag.
Qed.

Lemma tag_overrides_builtin_witness :
  exists labels,
    process_instance plain_conn
      (MkInstance "running" (Some "t2.micro") (Some "ami-1")
         [("zone", Some "asia"); ("machine", Some "big")])
    = Continue (with_queue ([] ++ [(1%Z, labels)]) plain_conn)
    /\ PyDict.get "zone" labels = Some "asia".
Proof.
  apply (tag_overrides_builtin plain_conn
           (MkInstance "running" (Some "t2.micro") (Some "ami-1")
              [("zone", Some "asia"); ("machine", Some "big")])
           "zone" (Some "asia"));
    first [reflexivity | cbn; tauto].
Defined.

(** ** The scenarios of the specification *)

(** Scenario A: of a running and a stopped instance, the filter
    [status = running] lets one fact through. *)
Example scenario_a :
  (do self <- conn_of (FilterConf None (Some (VStr "running")));
   inr (queued (poll_cycle self
                  [[prod_instance;
                    MkInstance "stopped" (Some "t2.micro") (Some "ami-1")
                      [("env", Some "prod")]]])))
  = inr [(1%Z, prod_labels)].
Proof. reflexivity. Qed.

(** Scenario B: the tag filter [team: [a, b]] excludes an instance tagged
    [team = c]. *)
Example scenario_b :
  (do self <- conn_of (FilterConf (Some [("team", VList ["a"; "b"])]) None);
   inr (queued (poll_cycle self
                  [[MkInstance "running" (Some "t2.micro") (Some "ami-1")
                      [("team", Some "c")]]])))
  = inr [].
Proof. reflexivity. Qed.

(** An absent status filter accepts every status. *)
Lemma absent_status_accepts (s : string) :
  exists r, compile_status None = inr r /\ Re.re_match r s = true.
Proof.
  exists (Re.Cat (Re.Star Re.Any) Re.Eps). split; [reflexivity|].
  unfold Re.re_match. cbn [Re.accept].
  destruct (String.length s); [reflexivity|]. apply orb_true_r.
Qed.

(** ** The queue drain *)

(** C8: whatever the queue holds and whatever is then put on it, [get]
    yields every item in the order it was put and leaves the queue empty;
    on an empty queue it yields nothing, and [Queue.Empty] never reaches
    the caller. *)
Theorem get_drains_fifo (self : Ec2Conn) (items : list Fact) :
  let self' :=
    fold_left (fun w x => with_queue (Queue.put_nowait x (_data_queue w)) w)
      items self in
  get self' = (_data_queue self ++ items, with_queue [] self')
  /\ get (with_queue [] self) = ([], with_queue [] self).
Proof.
  cbn zeta. split.
  - unfold get. rewrite drain_all. cbn [fst snd]. f_equal.
    revert self. induction items as [|x items IH]; intros self; cbn [fold_left].
    + now rewrite app_nil_r.
    + rewrite IH. cbn [with_queue _data_queue]. unfold Queue.put_nowait.
      now rewrite <- app_assoc.
  - unfold get. rewrite drain_all. reflexivity.
Qed.

(** ** Sorting *)

Section SortingFacts.
Context {A : Type} (key : A -> string).

Lemma insert_sorted_Permutation x l : Permutation (insert_sorted key x l) (x :: l).
Proof.
  induction l as [|y l IH]; cbn [insert_sorted]; [reflexivity|].
  destruct (String.leb (key x) (key y)); [reflexivity|].
  rewrite IH. apply perm_swap.
Qed.

Lemma sorted_Permutation l : Permutation (sorted key l) l.
Proof.
  induction l as [|x l IH]; cbn [sorted fold_right]; [reflexivity|].
  fold (sorted key l). rewrite insert_sorted_Permutation. now constructor.
Qed.

Lemma insert_sorted_Sorted x l :
  Sorted (fun a b => leb_str (key a) (key b)) l ->
  Sorted (fun a b => leb_str (key a) (key b)) (insert_sorted key x l).
Proof.
  induction l as [|y l IH]; cbn [insert_sorted]; intros Hs.
  - repeat constructor.
  - destruct (String.leb (key x) (key y)) eqn:E.
    + constructor; [exact Hs|]. now constructor.
    + inversion Hs as [|? ? Hs' Hhd]; subst. constructor; [auto|].
      assert (Hyx : leb_str (key y) (key x)).
      { destruct (String.leb_total (key x) (key y)); [congruence|assumption]. }
      destruct l as [|z l]; cbn [insert_sorted]; [now constructor|].
      destruct (String.leb (key x) (key z)); constructor; [exact Hyx|].
      now inversion Hhd.
Qed.

Lemma sorted_Sorted l : Sorted (fun a b => leb_str (key a) (key b)) (sorted key l).
Proof.
  induction l as [|x l IH]; cbn [sorted fold_right]; [constructor|].
  now apply insert_sorted_Sorted.
Qed.

Lemma map_insert_sorted x l :
  map key (insert_sorted key x l) = insert_sorted id (key x) (map key l).
Proof.
  induction l as [|y l IH]; cbn [insert_sorted map]; [reflexivity|].
  unfold id at 1 2. destruct (String.leb (key x) (key y)); cbn [map]; [reflexivity|].
  now rewrite IH.
Qed.

Lemma map_sorted l : map key (sorted key l) = sorted id (map key l).
Proof.
  induction l as [|x l IH]; cbn [sorted fold_right map]; [reflexivity|].
  fold (sorted key l). fold (sorted id (map key l)).
  now rewrite map_insert_sorted, IH.
Qed.
End SortingFacts.

(** ** The canonical key *)

Lemma NoDup_items {V : Type} (d : dict V) : List.NoDup (PyDict.keys d) -> NoDup d.
Proof. intros H. apply NoDup_ListNoDup. eapply List.NoDup_map_inv. exact H. Qed.

Lemma elements_frozen (d : dict string) :
  List.NoDup (PyDict.keys d) -> Permutation (elements (frozen_tags_of d)) d.
Proof.
  intros H. unfold frozen_tags_of.
  rewrite elements_list_to_set.
  - apply sorted_Permutation.
  - rewrite sorted_Permutation. now apply NoDup_items.
Qed.

Lemma elem_of_frozen (d : dict string) (k v : string) :
  List.NoDup (PyDict.keys d) ->
  (k, v) ∈ frozen_tags_of d <-> PyDict.get k d = Some v.
Proof.
  intros H. unfold frozen_tags_of.
  rewrite elem_of_list_to_set, sorted_Permutation, list_elem_of_In.
  split; [now apply In_get | apply get_In].
Qed.

Lemma same_items_get (d1 d2 : dict string) :
  List.NoDup (PyDict.keys d1) -> List.NoDup (PyDict.keys d2) ->
  same_items d1 d2 = true ->
  forall k v, PyDict.get k d1 = Some v <-> PyDict.get k d2 = Some v.
Proof.
  intros H1 H2 Hs. apply andb_prop in Hs as [Ha Hb].
  rewrite forallb_forall in Ha, Hb.
  assert (Hincl : forall (a b : dict string),
            (forall kv, In kv a ->
               match PyDict.get (fst kv) b with
               | Some v => String.eqb v (snd kv)
               | None => false
               end = true) ->
            forall k v, PyDict.get k a = Some v -> PyDict.get k b = Some v).
  { intros a b Hab k v Hg. apply get_In in Hg. specialize (Hab _ Hg).
    cbn [fst snd] in Hab. destruct (PyDict.get k b); [|discriminate].
    apply String.eqb_eq in Hab. now subst. }
  intros k v. split; eauto.
Qed.

(** On dictionaries, [same_items] is equality as mappings. *)
Lemma same_items_iff (d1 d2 : dict string) :
  List.NoDup (PyDict.keys d1) -> List.NoDup (PyDict.keys d2) ->
  same_items d1 d2 = true <-> PyDict.same_mapping d1 d2.
Proof.
  intros H1 H2. split.
  - intros Hs k. pose proof (same_items_get d1 d2 H1 H2 Hs k) as Hk.
    destruct (PyDict.get k d1) as [v|] eqn:E1.
    + symmetry. now apply Hk.
    + destruct (PyDict.get k d2) as [v|] eqn:E2; [|reflexivity].
      now apply Hk.
  - intros Hm. unfold same_items. apply andb_true_intro.
    split; apply forallb_forall; intros [k v] Hin; cbn [fst snd].
    + rewrite <- Hm, (In_get k v d1 H1 Hin). apply String.eqb_refl.
    + rewrite Hm, (In_get k v d2 H2 Hin). apply String.eqb_refl.
Qed.

Lemma frozen_tags_same (d1 d2 : dict string) :
  List.NoDup (PyDict.keys d1) -> List.NoDup (PyDict.keys d2) ->
  same_items d1 d2 = true ->
  frozen_tags_of d1 = frozen_tags_of d2.
Proof.
  intros H1 H2 Hs. apply set_eq. intros [k v].
  rewrite !elem_of_frozen by assumption. now apply same_items_get.
Qed.

Lemma sorted_frozen_keys (d : dict string) :
  List.NoDup (PyDict.keys d) ->
  List.NoDup (PyDict.keys (sorted fst (elements (frozen_tags_of d)))).
Proof.
  intros H. unfold PyDict.keys.
  eapply Permutation_NoDup; [|exact H].
  symmetry. apply Permutation_map.
  rewrite sorted_Permutation. now apply elements_frozen.
Qed.

Lemma label_names_keys (key : gset (string * string)) :
  label_names key = PyDict.keys (sorted fst (elements key)).
Proof. unfold label_names, PyDict.keys. now rewrite map_sorted. Qed.

Lemma combine_fst_snd {X Y : Type} (l : list (X * Y)) :
  combine (map fst l) (map snd l) = l.
Proof. induction l as [|[x y] l IH]; cbn; congruence. Qed.

(** The label dictionary of the sample built for a key is the fact's label
    set, listed by sorted name. *)
Lemma sample_labels (d : dict string) :
  List.NoDup (PyDict.keys d) ->
  PyDict.of_items (combine (label_names (frozen_tags_of d))
                     (label_values (frozen_tags_of d)))
  = sorted fst (elements (frozen_tags_of d)).
Proof.
  intros H. rewrite label_names_keys. unfold PyDict.keys, label_values.
  rewrite combine_fst_snd. apply of_items_id. now apply sorted_frozen_keys.
Qed.

Lemma label_values_lookup (d : dict string) :
  List.NoDup (PyDict.keys d) ->
  map Some (label_values (frozen_tags_of d))
  = map (fun n => PyDict.get n d) (label_names (frozen_tags_of d)).
Proof.
  intros H. rewrite label_names_keys. unfold PyDict.keys, label_values.
  rewrite !map_map. apply map_ext_in. intros [k v] Hin. cbn [fst snd].
  symmetry. apply In_get; [exact H|].
  eapply Permutation_in; [|exact Hin].
  rewrite sorted_Permutation. now apply elements_frozen.
Qed.

(** ** The aggregation pass *)

Section CollectFacts.
Implicit Types (metrics : gmap (gset (string * string)) GaugeMetricFamily)
  (out : list yielded) (key : gset (string * string)).

Lemma collect_fact_eq metrics out (v : Z) (d : dict string) :
  collect_fact (metrics, out) (v, d)
  = (<[frozen_tags_of d :=
         add_metric (label_values (frozen_tags_of d)) v
           (family_for metrics (frozen_tags_of d))]> metrics,
     out ++ [(GroupRef (frozen_tags_of d),
              add_metric (label_values (frozen_tags_of d)) v
                (family_for metrics (frozen_tags_of d)))]).
Proof.
  unfold collect_fact, family_for.
  destruct (metrics !! frozen_tags_of d) eqn:E.
  - now rewrite E.
  - now rewrite lookup_insert_eq, insert_insert_eq.
Qed.

Lemma samples_family_for metrics key :
  samples (family_for metrics key) = group_samples metrics key.
Proof. unfold family_for, group_samples. now destruct (metrics !! key). Qed.

Lemma wf_metrics_spec metrics :
  wf_metrics metrics = true <->
  forall key m, metrics !! key = Some m -> family_ok key m = true.
Proof.
  unfold wf_metrics. rewrite forallb_forall. split.
  - intros H key m Hm. apply (H (key, m)).
    apply list_elem_of_In. now apply elem_of_map_to_list.
  - intros H [key m] Hin. apply list_elem_of_In, elem_of_map_to_list in Hin.
    now apply H.
Qed.

Lemma family_for_ok metrics key :
  wf_metrics metrics = true -> family_ok key (family_for metrics key) = true.
Proof.
  intros Hwf. unfold family_for. destruct (metrics !! key) eqn:E.
  - eapply wf_metrics_spec; eauto.
  - unfold family_ok, new_group. cbn. now apply bool_decide_eq_true.
Qed.

Lemma add_metric_ok key labels v m :
  family_ok key m = true ->
  family_ok key (add_metric labels v m) = true.
Proof. intros H; exact H. Qed.

Lemma add_metric_sample (fact : Fact) metrics :
  wf_metrics metrics = true ->
  samples (add_metric (label_values (frozen_tags_of (snd fact))) (fst fact)
             (family_for metrics (frozen_tags_of (snd fact))))
  = group_samples metrics (frozen_tags_of (snd fact)) ++ [sample_of fact].
Proof.
  intros Hwf. pose proof (family_for_ok metrics (frozen_tags_of (snd fact)) Hwf) as Hok.
  unfold family_ok in Hok. apply andb_prop in Hok as [Hn Hl].
  apply String.eqb_eq in Hn. apply bool_decide_eq_true in Hl.
  unfold add_metric, sample_of. cbn [samples].
  now rewrite Hn, Hl, samples_family_for.
Qed.

(** One fact: the index stays well formed and the group of the fact's
    key gains the fact's sample. *)
Lemma collect_fact_samples metrics out (fact : Fact) :
  wf_metrics metrics = true ->
  wf_metrics (fst (collect_fact (metrics, out) fact)) = true
  /\ forall key,
       group_samples (fst (collect_fact (metrics, out) fact)) key
       = group_samples metrics key ++ map sample_of (facts_of_key key [fact]).
Proof.
  intros Hwf. destruct fact as [v d]. rewrite collect_fact_eq. cbn [fst]. split.
  - apply wf_metrics_spec. intros key m. rewrite lookup_insert.
    case_decide as Hk.
    + intros [= <-]. subst key. apply add_metric_ok. now apply family_for_ok.
    + now apply wf_metrics_spec.
  - intros key. unfold facts_of_key. cbn [List.filter snd].
    unfold group_samples at 1. rewrite lookup_insert.
    case_bool_decide as Hk; case_decide as Hk'; try congruence.
    + subst key. cbn [map]. apply (add_metric_sample (v, d) metrics Hwf).
    + cbn [map]. now rewrite app_nil_r.
Qed.

Lemma collect_facts_samples (facts : list Fact) : forall metrics out,
  wf_metrics metrics = true ->
  wf_metrics (fst (fold_left collect_fact facts (metrics, out))) = true
  /\ forall key,
       group_samples (fst (fold_left collect_fact facts (metrics, out))) key
       = group_samples metrics key ++ map sample_of (facts_of_key key facts).
Proof.
  induction facts as [|fact facts IH]; intros metrics out Hwf; cbn [fold_left].
  - split; [exact Hwf|]. intros key. cbn. now rewrite app_nil_r.
  - destruct (collect_fact_samples metrics out fact Hwf) as [Hwf' Hs].
    destruct (collect_fact (metrics, out) fact) as [metrics' out'] eqn:E.
    cbn [fst] in Hwf', Hs.
    destruct (IH metrics' out' Hwf') as [Hwf'' Hs'']. split; [exact Hwf''|].
    intros key. rewrite Hs'', Hs, <- app_assoc, <- map_app. f_equal. f_equal.
    unfold facts_of_key. cbn [List.filter].
    destruct (bool_decide (frozen_tags_of (snd fact) = key)); reflexivity.
Qed.

(** The nested loops fold [collect_fact] over the drained facts. *)
Lemma collect_conns_fold (conns : list Ec2Conn) : forall st,
  snd (collect_conns conns st)
  = fold_left collect_fact (flat_map (fun conn => fst (get conn)) conns) st.
Proof.
  induction conns as [|conn conns IH]; intros st; cbn [collect_conns flat_map fold_left].
  - reflexivity.
  - destruct (get conn) as [facts conn'] eqn:E. cbn [fst].
    rewrite fold_left_app, <- IH.
    now destruct (collect_conns conns (fold_left collect_fact facts st)).
Qed.

Lemma collect_metrics host (self : Ec2Collector) :
  _metrics (snd (collect host self))
  = fst (fold_left collect_fact (drained self)
           (_metrics self, [(AliveRef, add_metric [host] 1%Z (_alive_metric self))])).
Proof.
  unfold collect, drained. rewrite <- collect_conns_fold.
  destruct (collect_conns _ _) as [conns [metrics out]]. reflexivity.
Qed.

Lemma collect_yields host (self : Ec2Collector) :
  fst (collect host self)
  = snd (fold_left collect_fact (drained self)
           (_metrics self, [(AliveRef, add_metric [host] 1%Z (_alive_metric self))])).
Proof.
  unfold collect, drained. rewrite <- collect_conns_fold.
  destruct (collect_conns _ _) as [conns [metrics out]]. reflexivity.
Qed.

(** Without any assumption on the index: a family that is stored stays
    stored, and its samples are only extended. *)
Lemma collect_facts_extend (facts : list Fact) : forall metrics out key m,
  metrics !! key = Some m ->
  exists m' extra,
    fst (fold_left collect_fact facts (metrics, out)) !! key = Some m'
    /\ samples m' = samples m ++ extra.
Proof.
  induction facts as [|[v d] facts IH]; intros metrics out key m Hm; cbn [fold_left].
  - exists m, []. split; [exact Hm|now rewrite app_nil_r].
  - rewrite collect_fact_eq.
    destruct (decide (frozen_tags_of d = key)) as [<-|Hne].
    + edestruct IH as [m' [extra [Hm' Hs]]]; [apply lookup_insert_eq|].
      exists m'. eexists. split; [exact Hm'|].
      rewrite Hs. unfold add_metric, family_for. rewrite Hm. cbn [samples].
      rewrite <- app_assoc. reflexivity.
    + eapply IH. now rewrite lookup_insert_ne.
Qed.
End CollectFacts.

(** C1: a pass appends to the group of each key one sample per drained
    fact of that key, in drain order, each carrying that fact's own count;
    the samples already in the group stay in front of them.  The number
    of samples appended is the number of facts that share the key. *)
Theorem collect_one_sample_per_fact (host : string) (self : Ec2Collector) :
  wf_metrics (_metrics self) = true ->
  wf_metrics (_metrics (snd (collect host self))) = true
  /\ forall key,
       group_samples (_metrics (snd (collect host self))) key
       = group_samples (_metrics self) key
         ++ map sample_of (facts_of_key key (drained self))
       /\ Forall2 (fun s f => snd s = fst f)
            (map sample_of (facts_of_key key (drained self)))
            (facts_of_key key (drained self)).
Proof.
  intros Hwf. rewrite collect_metrics.
  destruct (collect_facts_samples (drained self) (_metrics self)
              [(AliveRef, add_metric [host] 1%Z (_alive_metric self))] Hwf)
    as [Hwf' Hs].
  split; [exact Hwf'|]. intros key. split; [apply Hs|].
  induction (facts_of_key key (drained self)); cbn [map]; constructor; auto.
Qed.

Lemma collect_one_sample_per_fact_witness :
  group_samples
    (_metrics (snd (collect "host" (poll_all [[prod_instance; prod_instance]] one_worker))))
    (frozen_tags_of prod_labels)
  = [] ++ map sample_of
            (facts_of_key (frozen_tags_of prod_labels)
               (drained (poll_all [[prod_instance; prod_instance]] one_worker))).
Proof.
  apply (collect_one_sample_per_fact "host"
           (poll_all [[prod_instance; prod_instance]] one_worker)).
  vm_compute. reflexivity.
Defined.

(** C1, as the specification states it, fails when one pass drains two
    facts with the same label set: their group holds two samples of value
    1, not one sample of value 2. *)
Lemma counted_counterexample :
  drained (poll_all [[prod_instance; prod_instance]] one_worker)
  = [(1%Z, prod_labels); (1%Z, prod_labels)]
  /\ ~ counted "host" (poll_all [[prod_instance; prod_instance]] one_worker)
         (frozen_tags_of prod_labels).
Proof.
  split; [reflexivity|].
  intros [nm [labels H]]. vm_compute in H. discriminate H.
Qed.

Example two_samples_of_one :
  map snd
    (group_samples
       (_metrics (snd (collect "host" (poll_all [[prod_instance; prod_instance]] one_worker))))
       (frozen_tags_of prod_labels))
  = [1%Z; 1%Z].
Proof. vm_compute. reflexivity. Qed.

(** C3: the index of families belongs to the collector, not to a pass.  A
    family stored before a pass is stored after it, its samples extended
    and never dropped; a pass that drains nothing yields the liveness
    family alone and leaves the index as it was. *)
Theorem groups_persist (host : string) (self : Ec2Collector) :
  (forall key m,
     _metrics self !! key = Some m ->
     exists m' extra,
       _metrics (snd (collect host self)) !! key = Some m'
       /\ samples m' = samples m ++ extra)
  /\ (drained self = [] ->
      fst (collect host self)
      = [(AliveRef, add_metric [host] 1%Z (_alive_metric self))]
      /\ _metrics (snd (collect host self)) = _metrics self).
Proof.
  split.
  - intros key m Hm. rewrite collect_metrics. now apply collect_facts_extend.
  - intros Hd. rewrite collect_yields, collect_metrics, Hd. split; reflexivity.
Qed.

Lemma groups_persist_witness :
  fst (collect "host"
         (snd (collect "host" (poll_all [[prod_instance]] one_worker))))
  = [(AliveRef,
      add_metric ["host"] 1%Z
        (_alive_metric (snd (collect "host" (poll_all [[prod_instance]] one_worker)))))]
  /\ _metrics (snd (collect "host"
                      (snd (collect "host" (poll_all [[prod_instance]] one_worker)))))
     = _metrics (snd (collect "host" (poll_all [[prod_instance]] one_worker))).
Proof.
  apply (groups_persist "host"
           (snd (collect "host" (poll_all [[prod_instance]] one_worker)))).
  vm_compute. reflexivity.
Defined.

(** C3, as the specification states it, fails when the worker polls the
    same instance again between two passes: the second pass drains one
    fact, and the family it yields holds two samples, the first of them
    left by the first pass. *)
Lemma pass_scoped_counterexample :
  drained (poll_all [[prod_instance]]
             (snd (collect "host" (poll_all [[prod_instance]] one_worker))))
  = [(1%Z, prod_labels)]
  /\ ~ pass_scoped "host"
         (poll_all [[prod_instance]]
            (snd (collect "host" (poll_all [[prod_instance]] one_worker)))).
Proof.
  split; [reflexivity|].
  intros H. specialize (H (frozen_tags_of prod_labels)).
  vm_compute in H. discriminate H.
Qed.

(** ** The constructor of the collector *)







Section AwsEntry.
Variables (fc : filter_conf) (tag_filters : dict Re.regex)
  (status_filter : Re.regex).
Hypothesis Htags : compile_tag_filters fc = inr tag_filters.
Hypothesis Hstatus : compile_status (fc_status fc) = inr status_filter.

Lemma Ec2Conn_init_ok zone region aws_key aws_secret :
  Ec2Conn_init zone region aws_key aws_secret fc
  = inr (MkEc2Conn false false zone region aws_key aws_secret
           tag_filters status_filter []).
Proof. unfold Ec2Conn_init. now rewrite Htags, Hstatus. Qed.

Lemma init_regions_ok zone aws_key aws_secret regions : forall conns started,
  init_regions zone aws_key aws_secret fc regions conns started
  = let workers :=
      map (fun r => MkEc2Conn true false zone r aws_key aws_secret
                      tag_filters status_filter []) regions in
    (started ++ workers, inr (conns ++ workers)).
Proof.
  induction regions as [|r regions IH]; intros conns started; cbn [init_regions map].
  - cbn. unfold ret. now rewrite !app_nil_r.
  - unfold bind, lift, spawn. rewrite Ec2Conn_init_ok. cbn beta iota zeta.
    rewrite IH. cbn zeta. unfold start. cbn. now rewrite <- !app_assoc.
Qed.

Lemma init_zones_ok access : forall conns started,
  forallb (fun zr => has_fields (snd zr)) access = true ->
  init_zones fc access conns started
  = let workers := flat_map (zone_workers tag_filters status_filter) access in
    (started ++ workers, inr (conns ++ workers)).
Proof.
  induction access as [|[zone record] access IH]; intros conns started Hf;
    cbn [init_zones flat_map].
  - cbn. unfold ret. now rewrite !app_nil_r.
  - cbn [forallb snd] in Hf. apply andb_prop in Hf as [Hrec Hf].
    unfold has_fields in Hrec. specialize (IH (conns ++ zone_workers tag_filters status_filter (zone, record))
                    (started ++ zone_workers tag_filters status_filter (zone, record)) Hf).
    cbn zeta in IH. remember (flat_map (zone_workers tag_filters status_filter) access) as rest.
    unfold zone_workers in *. cbn [fst snd] in *.
    unfold bind, lift, PyDict.getitem.
    destruct (PyDict.get "key" record) as [k|]; [|discriminate].
    destruct (PyDict.get "pwd" record) as [p|]; [|discriminate].
    destruct (PyDict.get "region" record) as [rs|]; [|discriminate].
    rewrite init_regions_ok. cbn beta iota zeta. rewrite IH.
    now rewrite <- !List.app_assoc.
Qed.
End AwsEntry.

(** C6: when every zone record under [access] has the fields [key], [pwd]
    and [region] and the provider's filters compile, the constructor
    returns a collector with one started worker per (zone, region) pair,
    in order, carrying the zone's [key] and [pwd] values as credentials. *)
Theorem init_one_worker_per_zone_region (cc : cloud_conf)
    (access : dict (dict value)) (tag_filters : dict Re.regex)
    (status_filter : Re.regex) :
  cc_access cc = Some access ->
  forallb (fun zr => has_fields (snd zr)) access = true ->
  compile_tag_filters (filters_of cc) = inr tag_filters ->
  compile_status (fc_status (filters_of cc)) = inr status_filter ->
  let workers := flat_map (zone_workers tag_filters status_filter) access in
  Ec2Collector_init [("aws", cc)]
  = (workers, inr (MkCollector workers alive_metric ∅)).
Proof.
  intros Ha Hf Ht Hs workers. unfold Ec2Collector_init. cbn [init_clouds].
  unfold bind, init_cloud. rewrite Ha. cbn [String.eqb Ascii.eqb Bool.eqb].
  rewrite (init_zones_ok _ _ _ Ht Hs) by exact Hf. reflexivity.
Qed.

Lemma init_one_worker_per_zone_region_witness :
  Ec2Collector_init
    [("aws", CloudConf None
               (Some [("europe", [("key", VStr "AKAIXXXXX"); ("pwd", VStr "XXXXX");
                                  ("region", VList ["eu-west-1"; "eu-central-1"])])]))]
  = ([start plain_conn;
      MkEc2Conn true false "europe" "eu-central-1" (VStr "AKAIXXXXX") (VStr "XXXXX")
        [] (Re.Cat (Re.Star Re.Any) Re.Eps) []],
     inr (MkCollector
            [start plain_conn;
             MkEc2Conn true false "europe" "eu-central-1" (VStr "AKAIXXXXX")
               (VStr "XXXXX") [] (Re.Cat (Re.Star Re.Any) Re.Eps) []]
            alive_metric ∅)).
Proof.
  apply (init_one_worker_per_zone_region
           (CloudConf None
              (Some [("europe", [("key", VStr "AKAIXXXXX"); ("pwd", VStr "XXXXX");
                                 ("region", VList ["eu-west-1"; "eu-central-1"])])]))
           [("europe", [("key", VStr "AKAIXXXXX"); ("pwd", VStr "XXXXX");
                        ("region", VList ["eu-west-1"; "eu-central-1"])])]
           [] (Re.Cat (Re.Star Re.Any) Re.Eps)); reflexivity.
Defined.

(** C6, as the specification states it, fails on the record of the
    specification's schema: the constructor reads [pwd], finds no such
    field beside [key], [secret] and [region], and raises [KeyError] before
    any worker exists. *)
Lemma init_schema_counterexample :
  Ec2Collector_init [("aws", CloudConf None (Some (access_with "secret")))]
  = ([], inl (KeyError "pwd")).
Proof. reflexivity. Qed.

(** * Further properties of the worker *)

(** ** The instance loop *)

Lemma with_queue_same (self : Ec2Conn) : with_queue (_data_queue self) self = self.
Proof. now destruct self. Qed.

Lemma with_queue_twice (q q' : list Fact) (self : Ec2Conn) :
  with_queue q (with_queue q' self) = with_queue q self.
Proof. reflexivity. Qed.

(** One iteration on a worker that is not canceled, by the three ways an
    instance can go. *)
Lemma process_instance_cases (self : Ec2Conn) (q : list Fact) (i : Instance) :
  _canceled self = false ->
  process_instance (with_queue q self) i
  = if raises self i then Raise TypeError (with_queue q self)
    else if passes self i then Continue (with_queue (q ++ [fact_of self i]) self)
    else Continue (with_queue q self).
Proof.
  intros Hc. unfold process_instance, raises, passes, _check_tags, fact_of.
  cbn [with_queue _canceled _status_filter _tag_filters _data_queue].
  rewrite Hc. destruct (Re.re_match (_status_filter self) (state i)); cbn [negb andb];
    [|reflexivity].
  destruct (check_items (_tag_filters self) (tags i)) as [e|[|]] eqn:E; try reflexivity.
  assert (He : e = TypeError); [|now subst].
  clear -E. revert E. generalize (_tag_filters self) as items.
  induction items as [|[t f] items IH]; cbn [check_items]; [discriminate|].
  destruct (PyDict.get t (tags i)) as [[v|]|]; [|congruence|discriminate].
  destruct (Re.re_match f v); [exact IH|discriminate].
Qed.

Lemma run_instances_quiet (self : Ec2Conn) (instances : list Instance) :
  _canceled self = false ->
  forallb (fun i => negb (raises self i)) instances = true ->
  forall q,
    run_instances (with_queue q self) instances
    = Continue (with_queue
                  (q ++ map (fact_of self) (List.filter (passes self) instances))
                  self).
Proof.
  intros Hc. induction instances as [|i instances IH]; intros Hq q;
    cbn [run_instances List.filter map].
  - now rewrite app_nil_r.
  - cbn [forallb] in Hq. apply andb_prop in Hq as [Hi Hq].
    apply negb_true_iff in Hi.
    rewrite process_instance_cases, Hi by exact Hc.
    destruct (passes self i); rewrite IH by exact Hq; [|reflexivity].
    cbn [map]. now rewrite <- app_assoc.
Qed.

(** X1: a cycle of a worker that is not canceled, over instances none of
    which makes the tag check raise, adds to the queue the facts of the
    instances that pass both filters, in the order of the instances and
    one fact of count 1 each, and changes nothing else in the worker. *)
Theorem poll_cycle_enqueues (self : Ec2Conn) (reservations : list (list Instance)) :
  _canceled self = false ->
  forallb (fun i => negb (raises self i)) (List.concat reservations) = true ->
  poll_cycle self reservations
  = Continue (with_queue
                (_data_queue self
                 ++ map (fact_of self)
                      (List.filter (passes self) (List.concat reservations)))
                self).
Proof.
  intros Hc Hq. unfold poll_cycle.
  rewrite <- (with_queue_same self) at 1. now apply run_instances_quiet.
Qed.

Lemma poll_cycle_enqueues_witness :
  poll_cycle plain_conn
    [[prod_instance]; [MkInstance "stopped" None None []]]
  = Continue (with_queue
                ([] ++ [(1%Z, prod_labels); (1%Z, [("zone", "europe"); ("region", "eu-west-1")])])
                plain_conn).
Proof.
  apply (poll_cycle_enqueues plain_conn
           [[prod_instance]; [MkInstance "stopped" None None []]]);
    reflexivity.
Defined.

(** X2: the first instance on which the tag check raises ends the cycle
    with [TypeError]: the facts of the passing instances before it are
    in the queue, and no instance after it is looked at. *)
Theorem poll_cycle_raises (self : Ec2Conn) (before after : list Instance)
    (i : Instance) :
  _canceled self = false ->
  forallb (fun i' => negb (raises self i')) before = true ->
  raises self i = true ->
  run_instances self (before ++ i :: after)
  = Raise TypeError
      (with_queue
         (_data_queue self ++ map (fact_of self) (List.filter (passes self) before))
         self).
Proof.
  intros Hc Hq Hi. rewrite <- (with_queue_same self) at 1.
  generalize (_data_queue self) as q. revert Hq.
  induction before as [|b before IH]; intros Hq q; cbn [app run_instances List.filter map].
  - rewrite process_instance_cases, Hi by exact Hc. now rewrite app_nil_r.
  - cbn [forallb] in Hq. apply andb_prop in Hq as [Hb Hq].
    apply negb_true_iff in Hb.
    rewrite process_instance_cases, Hb by exact Hc.
    destruct (passes self b); rewrite IH by exact Hq; [|reflexivity].
    cbn [map]. now rewrite <- app_assoc.
Qed.

Example env_conn_built :
  conn_of (FilterConf (Some [("env", VStr "prod")]) None) = inr env_conn.
Proof. reflexivity. Qed.

Lemma poll_cycle_raises_witness :
  run_instances env_conn
    ([prod_instance]
     ++ MkInstance "running" None None [("env", None)] :: [prod_instance])
  = Raise TypeError (with_queue ([] ++ [(1%Z, prod_labels)]) env_conn).
Proof.
  apply (poll_cycle_raises env_conn [prod_instance] [prod_instance]
           (MkInstance "running" None None [("env", None)]));
    reflexivity.
Defined.

(** X3: once [close] or [stop] has set the flag, a cycle leaves the worker
    as it is: whatever the reservations hold, nothing is enqueued. *)
Theorem canceled_worker_idle (self : Ec2Conn) (reservations : list (list Instance)) :
  worker_after (poll_cycle (close self) reservations) = close self
  /\ worker_after (poll_cycle (stop self) reservations) = stop self
  /\ queued (poll_cycle (close self) reservations) = _data_queue self.
Proof.
  unfold poll_cycle.
  destruct (List.concat reservations) as [|i instances]; repeat split; reflexivity.
Qed.

(** X4: whatever the worker's state and the instances, a cycle only
    appends to the queue: the facts already queued stay in front, in
    order, at most one fact is added per instance, every added fact has
    count 1, and no other field of the worker changes. *)
Theorem run_instances_only_appends (self : Ec2Conn) (instances : list Instance) :
  exists extra,
    worker_after (run_instances self instances)
    = with_queue (_data_queue self ++ extra) self
    /\ Forall (fun f => fst f = 1%Z) extra
    /\ List.length extra <= List.length instances.
Proof.
  destruct (_canceled self) eqn:Hc.
  - exists []. rewrite app_nil_r, with_queue_same. repeat split; [|constructor|cbn; lia].
    destruct instances as [|i instances]; cbn [run_instances]; [reflexivity|].
    unfold process_instance. now rewrite Hc.
  - assert (Hgen : forall q, exists extra,
              worker_after (run_instances (with_queue q self) instances)
              = with_queue (q ++ extra) self
              /\ Forall (fun f => fst f = 1%Z) extra
              /\ List.length extra <= List.length instances).
    { induction instances as [|i instances IH]; intros q; cbn [run_instances].
      + exists []. rewrite app_nil_r. repeat split; [constructor|cbn; lia].
      + rewrite process_instance_cases by exact Hc.
        destruct (raises self i).
        * exists []. rewrite app_nil_r. repeat split; [constructor|cbn; lia].
        * destruct (passes self i).
          -- destruct (IH (q ++ [fact_of self i])) as [extra [Hw [Hf Hl]]].
             exists (fact_of self i :: extra). rewrite Hw, <- app_assoc.
             repeat split; [constructor; [reflexivity|exact Hf]|cbn; lia].
          -- destruct (IH q) as [extra [Hw [Hf Hl]]].
             exists extra. rewrite Hw. repeat split; [exact Hf|cbn; lia]. }
    specialize (Hgen (_data_queue self)). now rewrite with_queue_same in Hgen.
Qed.

(** ** The tag check *)

(** X5: the tag check raises nothing but [TypeError], and only when a
    tag that a filter names is present on the instance with a null
    value. *)
Theorem check_tags_raises_on_null (self : Ec2Conn)
    (instance_tags : dict (option string)) (e : exn) :
  _check_tags self instance_tags = inl e ->
  e = TypeError
  /\ exists tag filter,
       In (tag, filter) (_tag_filters self)
       /\ PyDict.get tag instance_tags = Some None.
Proof.
  unfold _check_tags. generalize (_tag_filters self) as items.
  induction items as [|[t f] items IH]; cbn [check_items]; [discriminate|].
  destruct (PyDict.get t instance_tags) as [[v|]|] eqn:E.
  - destruct (Re.re_match f v); [|discriminate].
    intros H. destruct (IH H) as [He [tag [filter [Hin Hg]]]].
    split; [exact He|]. exists tag, filter. split; [now right|exact Hg].
  - intros [= <-]. split; [reflexivity|]. exists t, f. split; [now left|exact E].
  - discriminate.
Qed.

Lemma check_tags_raises_on_null_witness :
  TypeError = TypeError
  /\ exists tag filter,
       In (tag, filter) (_tag_filters env_conn)
       /\ PyDict.get tag [("env", @None string)] = Some None.
Proof.
  apply (check_tags_raises_on_null env_conn [("env", None)] TypeError).
  reflexivity.
Defined.

(** ** The filter compiler *)

Lemma compile_tags_fresh (items : dict value) : forall filters filters',
  compile_tags items filters = inr filters' ->
  List.NoDup (PyDict.keys filters ++ PyDict.keys (lowered items)) ->
  exists compiled,
    filters' = filters ++ compiled
    /\ Forall2 (fun kv kr => fst kr = lower (fst kv)
                             /\ compile (pattern_of (snd kv)) = inr (snd kr))
         items compiled.
Proof.
  induction items as [|[t v] items IH]; intros filters filters';
    cbn [compile_tags lowered map fst snd PyDict.keys].
  - intros [= <-] _. exists []. split; [now rewrite app_nil_r|constructor].
  - destruct (compile (pattern_of v)) as [e|r] eqn:Ec; cbn [bind_exn]; [discriminate|].
    intros H Hnd.
    assert (Hfresh : PyDict.get (lower t) filters = None).
    { apply get_None_keys. apply List.NoDup_remove_2 in Hnd.
      intros Hin. apply Hnd. apply in_or_app. now left. }
    rewrite set_fresh in H by exact Hfresh.
    destruct (IH _ _ H) as [compiled [Hf Hc]].
    { unfold PyDict.keys in *. rewrite map_app. cbn [map fst].
      rewrite <- app_assoc. exact Hnd. }
    exists ((lower t, r) :: compiled). split.
    + rewrite Hf, <- app_assoc. reflexivity.
    + constructor; [split; [reflexivity|exact Ec]|exact Hc].
Qed.

Lemma keys_lowered (items : dict value) :
  PyDict.keys (lowered items) = map (fun kv => lower (fst kv)) items.
Proof. unfold PyDict.keys, lowered. now rewrite map_map. Qed.

(** X6: what the tag check decides, in terms of the configuration, for
    configured tag names of ASCII characters and values whose patterns
    are in the modelled fragment (the worker is built).  When no two
    configured names have the same lower-cased form, the check returns
    [True] exactly when, for every configured name, the instance has a
    tag named by the lower-cased form of that name, with a non-null value
    that the pattern of the configured value matches. *)
Theorem check_tags_of_config (zone region : string) (aws_key aws_secret : value)
    (fc : filter_conf) (items : dict value) (self : Ec2Conn)
    (instance_tags : dict (option string)) :
  fc_tags fc = Some items ->
  forallb (fun kv => ascii_name (fst kv)) items = true ->
  unique_keys (lowered items) = true ->
  Ec2Conn_init zone region aws_key aws_secret fc = inr self ->
  _check_tags self instance_tags = inr true <->
  forall tag v, In (tag, v) items ->
    exists r val,
      compile (pattern_of v) = inr r
      /\ PyDict.get (lower tag) instance_tags = Some (Some val)
      /\ Re.re_match r val = true.
Proof.
  intros Hitems _ Hu Hinit. apply unique_keys_NoDup in Hu.
  unfold Ec2Conn_init, compile_tag_filters in Hinit. rewrite Hitems in Hinit.
  destruct (compile_tags items []) as [e|filters] eqn:Ec; cbn [bind_exn] in Hinit;
    [discriminate|].
  destruct (compile_status (fc_status fc)) as [e|sf]; cbn [bind_exn] in Hinit;
    [discriminate|].
  injection Hinit as <-. unfold _check_tags. cbn [_tag_filters].
  destruct (compile_tags_fresh items [] filters Ec Hu) as [compiled [-> Hc]].
  cbn [app]. rewrite check_items_true. clear Ec Hu Hitems.
  induction Hc as [|[t v] [k r] items compiled [Hk Hr] Hc IH]; cbn [fst snd] in *.
  - split; intros _ ? ? [].
  - subst k. split.
    + intros H tag v' [[= <- <-]|Hin].
      * destruct (H (lower t) r (or_introl eq_refl)) as [val [Hg Hm]].
        exists r, val. auto.
      * apply IH; [|exact Hin]. intros tag' f Hin'. apply H. now right.
    + intros H tag f [[= <- <-]|Hin].
      * destruct (H t v (or_introl eq_refl)) as [r' [val [Hr' [Hg Hm]]]].
        exists val. split; [exact Hg|]. congruence.
      * apply IH; [|exact Hin]. intros tag' v' Hin'. apply H. now right.
Qed.

Lemma check_tags_of_config_witness :
  _check_tags env_conn [("env", Some "prod"); ("Name", Some "web")] = inr true <->
  forall tag v, In (tag, v) [("Env", VStr "prod")] ->
    exists r val,
      compile (pattern_of v) = inr r
      /\ PyDict.get (lower tag) [("env", Some "prod"); ("Name", Some "web")]
         = Some (Some val)
      /\ Re.re_match r val = true.
Proof.
  apply (check_tags_of_config "europe" "eu-west-1" (VStr "AKAIXXXXX") (VStr "XXXXX")
           (FilterConf (Some [("Env", VStr "prod")]) None)
           [("Env", VStr "prod")] env_conn);
    reflexivity.
Defined.

(** X7: a filter configuration without [status] compiles to a status
    filter that accepts every status; when it has no tag filter either,
    every instance a worker that is not canceled looks at yields a
    fact. *)
Theorem absent_filters_accept (zone region : string) (aws_key aws_secret : value)
    (fc : filter_conf) (self : Ec2Conn) :
  fc_status fc = None ->
  Ec2Conn_init zone region aws_key aws_secret fc = inr self ->
  (forall status, Re.re_match (_status_filter self) status = true)
  /\ (_tag_filters self = [] ->
      forall q i,
        process_instance (with_queue q self) i
        = Continue (with_queue (q ++ [fact_of self i]) self)).
Proof.
  intros Hs Hinit. unfold Ec2Conn_init in Hinit. rewrite Hs in Hinit.
  destruct (compile_tag_filters fc) as [e|filters]; cbn [bind_exn] in Hinit;
    [discriminate|].
  change (compile_status None) with (@inr exn _ (Re.Cat (Re.Star Re.Any) Re.Eps)) in Hinit.
  cbn [bind_exn] in Hinit. injection Hinit as <-. cbn [_status_filter _tag_filters].
  assert (Hall : forall status,
            Re.re_match (Re.Cat (Re.Star Re.Any) Re.Eps) status = true).
  { intros status. unfold Re.re_match. cbn [Re.accept].
    destruct (String.length status); [reflexivity|]. apply orb_true_r. }
  split; [exact Hall|]. intros -> q i.
  rewrite process_instance_cases by reflexivity.
  unfold raises, passes, _check_tags. cbn [_status_filter _tag_filters check_items].
  now rewrite Hall.
Qed.

Lemma absent_filters_accept_witness :
  (forall status, Re.re_match (_status_filter plain_conn) status = true)
  /\ (_tag_filters plain_conn = [] ->
      forall q i,
        process_instance (with_queue q plain_conn) i
        = Continue (with_queue (q ++ [fact_of plain_conn i]) plain_conn)).
Proof.
  apply (absent_filters_accept "europe" "eu-west-1" (VStr "AKAIXXXXX") (VStr "XXXXX")
           (FilterConf None None) plain_conn); reflexivity.
Defined.

(** X8: an empty list of alternatives compiles to a matcher that accepts
    the empty string (or a lone newline) and nothing else. *)
Theorem empty_alternatives (s : string) :
  exists r,
    compile (pattern_of (VList [])) = inr r
    /\ (Re.re_match r s = true <-> s = "" \/ s = String newline "").
Proof.
  exists (Re.mkcat [Re.Bol; Re.Eps; Re.Eol]). split; [reflexivity|].
  unfold Re.re_match. cbn [Re.mkcat fold_right Re.accept].
  rewrite <- ReFacts.at_eol_iff. destruct (Re.at_eol s); tauto.
Qed.

Lemma compile_tags_app (a b : dict value) : forall filters,
  compile_tags (a ++ b) filters
  = (do filters' <- compile_tags a filters; compile_tags b filters').
Proof.
  induction a as [|[t v] a IH]; intros filters; cbn [app compile_tags bind_exn];
    [reflexivity|].
  destruct (compile (pattern_of v)); cbn [bind_exn]; [reflexivity|apply IH].
Qed.

Lemma compile_tags_get_other (items : dict value) (k : string) :
  forallb (fun kv => negb (String.eqb (lower (fst kv)) k)) items = true ->
  forall filters filters',
    compile_tags items filters = inr filters' ->
    PyDict.get k filters' = PyDict.get k filters.
Proof.
  induction items as [|[t v] items IH]; cbn [forallb compile_tags fst];
    intros Hk filters filters'.
  - now intros [= <-].
  - apply andb_prop in Hk as [Ht Hk]. apply negb_true_iff, String.eqb_neq in Ht.
    destruct (compile (pattern_of v)) as [e|r]; cbn [bind_exn]; [discriminate|].
    intros H. rewrite (IH Hk _ _ H). now apply get_set_ne.
Qed.

(** X9: when several configured tag names, of ASCII characters, have the
    same lower-cased form, the filter stored under that form is the one
    compiled from the value of the name iterated last. *)
Theorem compile_tags_last_wins (before after : dict value) (tag : string)
    (v : value) (filters : dict Re.regex) :
  forallb (fun kv => ascii_name (fst kv)) (before ++ (tag, v) :: after) = true ->
  forallb (fun kv => negb (String.eqb (lower (fst kv)) (lower tag))) after = true ->
  compile_tags (before ++ (tag, v) :: after) [] = inr filters ->
  exists r,
    compile (pattern_of v) = inr r
    /\ PyDict.get (lower tag) filters = Some r.
Proof.
  intros _ Hafter. rewrite compile_tags_app.
  destruct (compile_tags before []) as [e|filters0]; cbn [bind_exn compile_tags];
    [discriminate|].
  destruct (compile (pattern_of v)) as [e|r]; cbn [bind_exn]; [discriminate|].
  intros H. exists r. split; [reflexivity|].
  rewrite (compile_tags_get_other after (lower tag) Hafter _ _ H).
  apply get_set_eq.
Qed.

Lemma compile_tags_last_wins_witness :
  exists r,
    compile (pattern_of (VStr "test")) = inr r
    /\ PyDict.get (lower "ENV")
         [("env", Re.mkcat (Re.Bol :: lits "test" ++ [Re.Eol]));
          ("team", Re.mkcat (Re.Bol :: lits "a" ++ [Re.Eol]))]
       = Some r.
Proof.
  apply (compile_tags_last_wins [("env", VStr "prod")] [("team", VStr "a")]
           "ENV" (VStr "test")); reflexivity.
Defined.

(** X19: a worker whose only filter is a status without special
    characters enqueues, in a cycle, the fact of exactly the instances
    whose state is that status (or that status followed by one final
    newline), in their order. *)
Theorem status_filter_selects (zone region : string) (aws_key aws_secret : value)
    (status : string) (self : Ec2Conn) (instances : list Instance) :
  literal status = true ->
  Ec2Conn_init zone region aws_key aws_secret (FilterConf None (Some (VStr status)))
  = inr self ->
  run_instances self instances
  = Continue (with_queue
                (map (fact_of self)
                   (List.filter (fun i => exact_or_newline status (state i)) instances))
                self).
Proof.
  intros Hl Hinit. unfold Ec2Conn_init in Hinit.
  cbn [compile_tag_filters fc_tags fc_status bind_exn compile_status pattern_of] in Hinit.
  unfold compile in Hinit. rewrite (ReFacts.compile_single status Hl) in Hinit.
  cbn [bind_exn] in Hinit. injection Hinit as <-.
  set (self := MkEc2Conn false false zone region aws_key aws_secret []
                 (Re.mkcat (Re.Bol :: lits status ++ [Re.Eol])) []).
  assert (Hr : forall i, raises self i = false).
  { intros i. unfold raises, _check_tags. cbn. apply andb_false_r. }
  assert (Hp : forall i, passes self i = exact_or_newline status (state i)).
  { intros i. unfold passes, _check_tags. cbn [self _status_filter _tag_filters check_items].
    now rewrite match_single, andb_true_r. }
  assert (Hq : forallb (fun i => negb (raises self i)) instances = true)
    by (apply forallb_forall; intros i _; now rewrite Hr).
  pose proof (run_instances_quiet self instances eq_refl Hq []) as H.
  cbn [app] in H. rewrite (List.filter_ext _ _ Hp) in H. exact H.
Qed.

Lemma status_filter_selects_witness :
  run_instances
    (MkEc2Conn false false "europe" "eu-west-1" (VStr "AKAIXXXXX") (VStr "XXXXX") []
       (Re.mkcat (Re.Bol :: lits "running" ++ [Re.Eol])) [])
    [prod_instance; MkInstance "stopped" None None []]
  = Continue
      (with_queue
         (map (fact_of
                 (MkEc2Conn false false "europe" "eu-west-1" (VStr "AKAIXXXXX")
                    (VStr "XXXXX") []
                    (Re.mkcat (Re.Bol :: lits "running" ++ [Re.Eol])) []))
            (List.filter (fun i => exact_or_newline "running" (state i))
               [prod_instance; MkInstance "stopped" None None []]))
         (MkEc2Conn false false "europe" "eu-west-1" (VStr "AKAIXXXXX") (VStr "XXXXX") []
            (Re.mkcat (Re.Bol :: lits "running" ++ [Re.Eol])) [])).
Proof.
  apply (status_filter_selects "europe" "eu-west-1" (VStr "AKAIXXXXX") (VStr "XXXXX")
           "running"); reflexivity.
Defined.

(** * Further properties of the collector *)

(** ** What a pass yields and leaves behind *)

Lemma fold_collect_out (facts : list Fact) :
  forall (metrics : gmap (gset (string * string)) GaugeMetricFamily)
         (out : list yielded),
    exists rest,
      snd (fold_left collect_fact facts (metrics, out)) = out ++ rest
      /\ map fst rest = map (fun f => GroupRef (key_of f)) facts.
Proof.
  induction facts as [|[v d] facts IH]; intros metrics out; cbn [fold_left map].
  - exists []. split; [now rewrite app_nil_r|reflexivity].
  - rewrite collect_fact_eq.
    edestruct IH as [rest [Hrest Hmap]]. rewrite Hrest.
    eexists (_ :: rest). split; [now rewrite <- app_assoc|].
    cbn [map fst]. now rewrite Hmap.
Qed.

(** X10: a pass yields the liveness family first, with one more sample
    than it had, and then one family per drained fact, in drain order:
    the family stored under the fact's key, yielded again for every fact
    of that key. *)
Theorem collect_yields_per_fact (host : string) (self : Ec2Collector) :
  exists rest,
    fst (collect host self)
    = (AliveRef, add_metric [host] 1%Z (_alive_metric self)) :: rest
    /\ map fst rest = map (fun f => GroupRef (key_of f)) (drained self).
Proof.
  rewrite collect_yields.
  destruct (fold_collect_out (drained self) (_metrics self)
              [(AliveRef, add_metric [host] 1%Z (_alive_metric self))])
    as [rest [Hrest Hmap]].
  exists rest. split; [exact Hrest|exact Hmap].
Qed.

Lemma get_drained (conn : Ec2Conn) :
  get conn = (_data_queue conn, with_queue [] conn).
Proof. unfold get. now rewrite drain_all. Qed.

Lemma collect_conns_conns (conns : list Ec2Conn) :
  forall st, fst (collect_conns conns st) = map (with_queue []) conns.
Proof.
  induction conns as [|conn conns IH]; intros st; cbn [collect_conns map];
    [reflexivity|].
  rewrite get_drained. specialize (IH (fold_left collect_fact (_data_queue conn) st)).
  destruct (collect_conns conns _). cbn [fst] in *. now rewrite IH.
Qed.

Lemma collect_conn (host : string) (self : Ec2Collector) :
  _conn (snd (collect host self)) = map (with_queue []) (_conn self).
Proof.
  unfold collect.
  pose proof (collect_conns_conns (_conn self)
                (_metrics self, [(AliveRef, add_metric [host] 1%Z (_alive_metric self))])) as H.
  destruct (collect_conns _ _) as [conns [metrics out]]. exact H.
Qed.

Lemma collect_alive (host : string) (self : Ec2Collector) :
  _alive_metric (snd (collect host self)) = add_metric [host] 1%Z (_alive_metric self).
Proof.
  unfold collect. destruct (collect_conns _ _) as [conns [metrics out]]. reflexivity.
Qed.

Lemma drained_emptied (conns : list Ec2Conn) :
  flat_map (fun conn => fst (get conn)) (map (with_queue []) conns) = [].
Proof. induction conns as [|conn conns IH]; cbn; [reflexivity|exact IH]. Qed.

(** X11: a pass empties the queue of every worker and changes nothing
    else in the workers; the pass that follows it at once drains nothing
    and yields the liveness family alone. *)
Theorem collect_empties_queues (host host' : string) (self : Ec2Collector) :
  _conn (snd (collect host self)) = map (with_queue []) (_conn self)
  /\ drained (snd (collect host self)) = []
  /\ fst (collect host' (snd (collect host self)))
     = [(AliveRef,
         add_metric [host'] 1%Z (add_metric [host] 1%Z (_alive_metric self)))].
Proof.
  assert (Hd : drained (snd (collect host self)) = []).
  { unfold drained. rewrite collect_conn. apply drained_emptied. }
  split; [apply collect_conn|]. split; [exact Hd|].
  rewrite collect_yields, Hd, collect_alive. reflexivity.
Qed.

Lemma scrapes_cons (ev : string * list (list Instance))
    (events : list (string * list (list Instance))) (self : Ec2Collector) :
  scrapes (ev :: events) self
  = scrapes events (snd (collect (fst ev) (poll_all (snd ev) self))).
Proof. reflexivity. Qed.

(** X12: the liveness family is never reset: every scrape appends one
    sample of value 1 to it, so after a run of scrapes it holds one
    sample per scrape after those it held before, whatever the workers
    polled in between. *)
Theorem alive_accumulates (events : list (string * list (list Instance)))
    (self : Ec2Collector) :
  samples (_alive_metric (scrapes events self))
  = samples (_alive_metric self)
    ++ map (fun ev =>
              (name (_alive_metric self),
               PyDict.of_items (combine (_labelnames (_alive_metric self)) [fst ev]),
               1%Z))
         events.
Proof.
  revert self. induction events as [|ev events IH]; intros self.
  - cbn. now rewrite app_nil_r.
  - rewrite scrapes_cons, IH, collect_alive. cbn [poll_all _alive_metric add_metric
      samples name _labelnames map]. now rewrite <- app_assoc.
Qed.

Lemma fold_collect_dom (facts : list Fact) :
  forall (metrics : gmap (gset (string * string)) GaugeMetricFamily)
         (out : list yielded),
    dom (fst (fold_left collect_fact facts (metrics, out)))
    = dom metrics ∪ list_to_set (map key_of facts).
Proof.
  induction facts as [|[v d] facts IH]; intros metrics out; cbn [fold_left map].
  - cbn [list_to_set foldr]. now rewrite (right_id_L ∅ (∪)).
  - rewrite collect_fact_eq, IH, dom_insert_L, list_to_set_cons.
    unfold key_of at 1. cbn [snd].
    rewrite (comm_L (∪) {[frozen_tags_of d]} (dom metrics)).
    now rewrite (assoc_L (∪)).
Qed.

(** X13: a pass never removes a group: the keys of the index after it
    are the keys it had before together with the keys of the drained
    facts. *)
Theorem collect_groups_grow (host : string) (self : Ec2Collector) :
  dom (_metrics (snd (collect host self)))
  = dom (_metrics self) ∪ list_to_set (map key_of (drained self)).
Proof. rewrite collect_metrics. apply fold_collect_dom. Qed.

Lemma keys_Permutation {V : Type} (l1 l2 : dict V) :
  Permutation l1 l2 -> Permutation (PyDict.keys l1) (PyDict.keys l2).
Proof. apply Permutation_map. Qed.

Lemma get_Permutation {V : Type} (l1 l2 : dict V) (k : string) :
  List.NoDup (PyDict.keys l1) -> Permutation l1 l2 ->
  PyDict.get k l1 = PyDict.get k l2.
Proof.
  intros Hnd Hp.
  assert (Hnd2 : List.NoDup (PyDict.keys l2))
    by (eapply Permutation_NoDup; [apply keys_Permutation; exact Hp|exact Hnd]).
  destruct (PyDict.get k l1) as [v|] eqn:E1.
  - symmetry. apply In_get; [exact Hnd2|].
    eapply Permutation_in; [exact Hp|]. now apply get_In.
  - symmetry. apply get_None_keys. apply get_None_keys in E1.
    intros Hin. apply E1. eapply Permutation_in; [|exact Hin].
    symmetry. now apply keys_Permutation.
Qed.

(** X14: the sample that a fact appends round-trips the fact's label
    set: when the index holds families of the collector's making, the
    family yielded for a fact ends with a sample named
    [ec2_number_instances] that carries the fact's count and a label
    dictionary equal, as a mapping, to the fact's label set. *)
Theorem sample_carries_labels
    (metrics : gmap (gset (string * string)) GaugeMetricFamily)
    (out : list yielded) (v : Z) (d : dict string) :
  wf_metrics metrics = true ->
  unique_keys d = true ->
  exists metrics' family labels,
    collect_fact (metrics, out) (v, d)
    = (metrics', out ++ [(GroupRef (frozen_tags_of d), family)])
    /\ metrics' !! frozen_tags_of d = Some family
    /\ samples family
       = group_samples metrics (frozen_tags_of d)
         ++ [("ec2_number_instances", labels, v)]
    /\ PyDict.same_mapping labels d.
Proof.
  intros Hwf Hu. apply unique_keys_NoDup in Hu.
  rewrite collect_fact_eq. do 3 eexists.
  split; [reflexivity|]. split; [apply lookup_insert_eq|].
  split.
  { pose proof (add_metric_sample (v, d) metrics Hwf) as Hs.
    cbn [fst snd] in Hs. rewrite Hs. unfold sample_of.
    cbn [fst snd]. rewrite (sample_labels d Hu). reflexivity. }
  intros k. apply get_Permutation; [now apply sorted_frozen_keys|].
  rewrite sorted_Permutation. now apply elements_frozen.
Qed.

Lemma sample_carries_labels_witness :
  exists metrics' family labels,
    collect_fact (∅, []) (1%Z, prod_labels)
    = (metrics', [] ++ [(GroupRef (frozen_tags_of prod_labels), family)])
    /\ metrics' !! frozen_tags_of prod_labels = Some family
    /\ samples family
       = group_samples ∅ (frozen_tags_of prod_labels)
         ++ [("ec2_number_instances", labels, 1%Z)]
    /\ PyDict.same_mapping labels prod_labels.
Proof.
  apply (sample_carries_labels ∅ [] 1%Z prod_labels); reflexivity.
Defined.

(** ** [destroy] *)

(** X15: [destroy] sets the flag of every worker and forgets the workers:
    the facts still in their queues stay there, and a [collect] after it
    drains nothing and yields the liveness family alone. *)
Theorem destroy_cancels (host : string) (self : Ec2Collector) :
  Forall (fun w => _canceled w = true) (fst (destroy self))
  /\ map _data_queue (fst (destroy self)) = map _data_queue (_conn self)
  /\ _conn (snd (destroy self)) = []
  /\ fst (collect host (snd (destroy self)))
     = [(AliveRef, add_metric [host] 1%Z (_alive_metric self))]
  /\ _metrics (snd (collect host (snd (destroy self)))) = _metrics self.
Proof.
  unfold destroy. cbn [fst snd _conn].
  split; [|split; [|split; [reflexivity|split; reflexivity]]].
  - rewrite map_map. induction (_conn self); cbn [map]; constructor; auto.
  - rewrite !map_map. apply map_ext. reflexivity.
Qed.

(** ** The constructor: missing fields, string regions, success *)

Lemma init_zones_missing (fc : filter_conf) (tag_filters : dict Re.regex)
    (status_filter : Re.regex) (before after : dict (dict value))
    (zone : string) (record : dict value) :
  compile_tag_filters fc = inr tag_filters ->
  compile_status (fc_status fc) = inr status_filter ->
  forallb (fun zr => has_fields (snd zr)) before = true ->
  has_fields record = false ->
  forall conns started,
    init_zones fc (before ++ (zone, record) :: after) conns started
    = (started ++ flat_map (zone_workers tag_filters status_filter) before,
       inl (KeyError (first_missing record))).
Proof.
  intros Ht Hs. induction before as [|[z rec] before IH]; intros Hb Hrec conns started;
    cbn [app init_zones flat_map].
  - rewrite app_nil_r. unfold has_fields in Hrec. unfold first_missing, bind, lift, PyDict.getitem.
    destruct (PyDict.get "key" record); [|reflexivity].
    destruct (PyDict.get "pwd" record); [|reflexivity].
    destruct (PyDict.get "region" record); [discriminate|reflexivity].
  - cbn [forallb snd] in Hb. apply andb_prop in Hb as [Hz Hb].
    specialize (IH Hb Hrec). unfold has_fields in Hz.
    unfold zone_workers at 1. cbn [fst snd].
    unfold bind, lift, PyDict.getitem.
    destruct (PyDict.get "key" rec) as [k|]; [|discriminate].
    destruct (PyDict.get "pwd" rec) as [p|]; [|discriminate].
    destruct (PyDict.get "region" rec) as [rs|]; [|discriminate].
    rewrite (init_regions_ok fc tag_filters status_filter Ht Hs). cbn beta iota zeta.
    rewrite IH. now rewrite <- List.app_assoc.
Qed.

(** X16: a zone record without [key], [pwd] or [region] makes the
    constructor raise [KeyError] for the first of these it lacks.  The
    workers of the zones before it are already started and stay so; no
    worker is made for that zone or a later one. *)
Theorem init_missing_field (cc : cloud_conf) (before after : dict (dict value))
    (zone : string) (record : dict value) (tag_filters : dict Re.regex)
    (status_filter : Re.regex) :
  cc_access cc = Some (before ++ (zone, record) :: after) ->
  forallb (fun zr => has_fields (snd zr)) before = true ->
  has_fields record = false ->
  compile_tag_filters (filters_of cc) = inr tag_filters ->
  compile_status (fc_status (filters_of cc)) = inr status_filter ->
  Ec2Collector_init [("aws", cc)]
  = (flat_map (zone_workers tag_filters status_filter) before,
     inl (KeyError (first_missing record))).
Proof.
  intros Ha Hb Hrec Ht Hs. unfold Ec2Collector_init. cbn [init_clouds].
  unfold bind, init_cloud. rewrite Ha. cbn [String.eqb Ascii.eqb Bool.eqb].
  rewrite (init_zones_missing _ _ _ _ _ _ _ Ht Hs Hb Hrec). reflexivity.
Qed.

Lemma init_missing_field_witness :
  Ec2Collector_init
    [("aws", CloudConf None
               (Some (access_with "pwd"
                      ++ ("asia", [("key", VStr "AKAIYYYYY");
                                   ("region", VList ["ap-south-1"])]) :: [])))]
  = ([start plain_conn], inl (KeyError "pwd")).
Proof.
  apply (init_missing_field
           (CloudConf None
              (Some (access_with "pwd"
                     ++ ("asia", [("key", VStr "AKAIYYYYY");
                                  ("region", VList ["ap-south-1"])]) :: [])))
           (access_with "pwd") []
           "asia" [("key", VStr "AKAIYYYYY"); ("region", VList ["ap-south-1"])]
           [] (Re.Cat (Re.Star Re.Any) Re.Eps)); reflexivity.
Defined.

Lemma chars_length (s : string) : List.length (chars s) = String.length s.
Proof. induction s as [|c s IH]; cbn; congruence. Qed.

(** X17: a [region] field that is a string, not a list, is iterated
    character by character: the constructor starts one worker per
    character of the string, each with a one-character region. *)
Theorem init_region_string (cc : cloud_conf) (zone : string)
    (record : dict value) (aws_key aws_secret : value) (s : string)
    (tag_filters : dict Re.regex) (status_filter : Re.regex) :
  cc_access cc = Some [(zone, record)] ->
  PyDict.get "key" record = Some aws_key ->
  PyDict.get "pwd" record = Some aws_secret ->
  PyDict.get "region" record = Some (VStr s) ->
  compile_tag_filters (filters_of cc) = inr tag_filters ->
  compile_status (fc_status (filters_of cc)) = inr status_filter ->
  exists workers,
    Ec2Collector_init [("aws", cc)]
    = (workers, inr (MkCollector workers alive_metric ∅))
    /\ map _region workers = chars s
    /\ List.length workers = String.length s.
Proof.
  intros Ha Hk Hp Hr Ht Hs. unfold Ec2Collector_init. cbn [init_clouds].
  unfold bind, init_cloud. rewrite Ha. cbn [String.eqb Ascii.eqb Bool.eqb].
  rewrite (init_zones_ok _ _ _ Ht Hs)
    by (cbn [forallb snd]; unfold has_fields; now rewrite Hk, Hp, Hr).
  cbn zeta. cbn [flat_map app]. unfold zone_workers. cbn [fst snd].
  rewrite Hk, Hp, Hr, app_nil_r. cbn [regions_of].
  eexists. split; [reflexivity|]. split.
  - rewrite map_map. cbn [_region]. apply map_id.
  - now rewrite length_map, chars_length.
Qed.

Lemma init_region_string_witness :
  exists workers,
    Ec2Collector_init
      [("aws", CloudConf None
                 (Some [("europe", [("key", VStr "AKAIXXXXX"); ("pwd", VStr "XXXXX");
                                    ("region", VStr "eu")])]))]
    = (workers, inr (MkCollector workers alive_metric ∅))
    /\ map _region workers = chars "eu"
    /\ List.length workers = String.length "eu".
Proof.
  apply (init_region_string
           (CloudConf None
              (Some [("europe", [("key", VStr "AKAIXXXXX"); ("pwd", VStr "XXXXX");
                                 ("region", VStr "eu")])]))
           "europe"
           [("key", VStr "AKAIXXXXX"); ("pwd", VStr "XXXXX"); ("region", VStr "eu")]
           (VStr "AKAIXXXXX") (VStr "XXXXX") "eu"
           [] (Re.Cat (Re.Star Re.Any) Re.Eps)); reflexivity.
Defined.

Lemma Ec2Conn_init_fresh zone region aws_key aws_secret fc conn :
  Ec2Conn_init zone region aws_key aws_secret fc = inr conn ->
  _started conn = false /\ _canceled conn = false /\ _data_queue conn = [].
Proof.
  unfold Ec2Conn_init.
  destruct (compile_tag_filters fc); cbn [bind_exn]; [discriminate|].
  destruct (compile_status (fc_status fc)); cbn [bind_exn]; [discriminate|].
  intros [= <-]. auto.
Qed.

Section InitInvariant.
Let idle (w : Ec2Conn) : Prop :=
  _started w = true /\ _canceled w = false /\ _data_queue w = [].

Let extends (conns started : list Ec2Conn)
    (r : list Ec2Conn * (exn + list Ec2Conn)) : Prop :=
  exists ws,
    fst r = started ++ ws
    /\ Forall idle ws
    /\ forall conns', snd r = inr conns' -> conns' = conns ++ ws.

Lemma extends_refl conns started e :
  extends conns started (started, inl e).
Proof.
  exists []. cbn. rewrite app_nil_r. repeat split; [constructor|discriminate].
Qed.

Lemma extends_trans conns started ws r :
  Forall idle ws ->
  extends (conns ++ ws) (started ++ ws) r ->
  extends conns started r.
Proof.
  intros Hws [ws' [Hf [Hi Hc]]]. exists (ws ++ ws').
  rewrite !app_assoc. repeat split; [exact Hf|now apply Forall_app|exact Hc].
Qed.

Lemma init_regions_extends zone aws_key aws_secret fc regions :
  forall conns started,
    extends conns started
      (init_regions zone aws_key aws_secret fc regions conns started).
Proof.
  induction regions as [|r regions IH]; intros conns started; cbn [init_regions].
  - exists []. cbn. rewrite !app_nil_r. repeat split; [constructor|now intros ? [= <-]].
  - unfold bind, lift, spawn.
    destruct (Ec2Conn_init zone r aws_key aws_secret fc) as [e|conn] eqn:E;
      [apply extends_refl|].
    apply Ec2Conn_init_fresh in E as [_ [Hc Hq]].
    apply (extends_trans _ _ [start conn]); [|apply IH].
    repeat constructor; assumption.
Qed.

Lemma init_zones_extends fc access :
  forall conns started,
    extends conns started (init_zones fc access conns started).
Proof.
  induction access as [|[zone record] access IH]; intros conns started; cbn [init_zones].
  - exists []. cbn. rewrite !app_nil_r. repeat split; [constructor|now intros ? [= <-]].
  - unfold bind, lift.
    destruct (PyDict.getitem "key" record) as [e|k]; [apply extends_refl|].
    destruct (PyDict.getitem "pwd" record) as [e|p]; [apply extends_refl|].
    destruct (PyDict.getitem "region" record) as [e|rs]; [apply extends_refl|].
    destruct (init_regions_extends zone k p fc (regions_of rs) conns started)
      as [ws [Hf [Hi Hc]]].
    destruct (init_regions zone k p fc (regions_of rs) conns started)
      as [started' [e|conns']]; cbn [fst snd] in *.
    + exists ws. cbn [fst snd]. repeat split; [exact Hf|exact Hi|discriminate].
    + subst started'. rewrite (Hc conns' eq_refl).
      apply (extends_trans _ _ ws); [exact Hi|apply IH].
Qed.

Lemma init_clouds_extends conf :
  forall conns started,
    extends conns started (init_clouds conf conns started)
    /\ (forall conns',
          snd (init_clouds conf conns started) = inr conns' ->
          Forall (fun entry => fst entry = "aws" /\ cc_access (snd entry) <> None) conf).
Proof.
  induction conf as [|[cloud cc] conf IH]; intros conns started; cbn [init_clouds].
  - split; [|constructor]. exists []. cbn. rewrite !app_nil_r.
    repeat split; [constructor|now intros ? [= <-]].
  - unfold bind, init_cloud.
    destruct (cc_access cc) as [access|] eqn:Ha;
      [|split; [apply extends_refl|discriminate]].
    destruct (String.eqb_spec cloud "aws") as [->|Hne];
      [|split; [apply extends_refl|discriminate]].
    destruct (init_zones_extends (filters_of cc) access conns started)
      as [ws [Hf [Hi Hc]]].
    destruct (init_zones (filters_of cc) access conns started)
      as [started' [e|conns']]; cbn [fst snd] in *.
    + split; [|discriminate]. exists ws. cbn [fst snd].
      repeat split; [exact Hf|exact Hi|discriminate].
    + subst started'. rewrite (Hc conns' eq_refl).
      destruct (IH (conns ++ ws) (started ++ ws)) as [He Hall].
      split; [apply (extends_trans _ _ ws); [exact Hi|exact He]|].
      intros conns'' Hok. constructor; [|now apply (Hall conns'')].
      cbn [fst snd]. split; [reflexivity|congruence].
Qed.

(** X18: every thread the constructor has started, whether it then
    returns or raises, is started, not canceled and has an empty queue.
    When it returns, the collector holds exactly these threads as its
    workers, the fresh liveness family and an empty index, and every
    entry of the configuration is named [aws] and has an [access]
    block. *)
Theorem init_success (conf : dict cloud_conf) :
  Forall (fun w => _started w = true /\ _canceled w = false /\ _data_queue w = [])
    (fst (Ec2Collector_init conf))
  /\ forall collector,
       snd (Ec2Collector_init conf) = inr collector ->
       collector = MkCollector (fst (Ec2Collector_init conf)) alive_metric ∅
       /\ Forall (fun entry => fst entry = "aws" /\ cc_access (snd entry) <> None)
            conf.
Proof.
  unfold Ec2Collector_init.
  destruct (init_clouds_extends conf [] []) as [[ws [Hf [Hi Hc]]] Hall].
  destruct (init_clouds conf [] []) as [started [e|conns]]; cbn [fst snd] in *.
  - subst started. split; [exact Hi|discriminate].
  - subst started. split; [exact Hi|].
    intros collector [= <-]. rewrite (Hc conns eq_refl).
    split; [reflexivity|now apply (Hall conns)].
Qed.
End InitInvariant.

Lemma init_success_witness :
  MkCollector [start plain_conn] alive_metric ∅
  = MkCollector
      (fst (Ec2Collector_init [("aws", CloudConf None (Some (access_with "pwd")))]))
      alive_metric ∅
  /\ Forall (fun entry => fst entry = "aws" /\ cc_access (snd entry) <> None)
       [("aws", CloudConf None (Some (access_with "pwd")))].
Proof.
  apply (init_success [("aws", CloudConf None (Some (access_with "pwd")))]).
  reflexivity.
Defined.

(** ** The canonical key and the sample of a fact *)

(** C9: two facts whose label sets hold the same name-value pairs, in
    whatever order, get the same key and so the same family of
    [_metrics]: collected one after the other, both are yielded under
    that key and leave their two samples at the end of that one family.
    The family's label names are the sorted names of the label set; the
    values handed to [add_metric] are the fact's values listed by sorted
    name, and each sample's label dictionary is the zip of the two, which
    is the fact's label set as a mapping. *)
Theorem canonical_key (v1 v2 : Z) (d1 d2 : dict string) :
  unique_keys d1 = true ->
  unique_keys d2 = true ->
  same_items d1 d2 = true ->
  let key := frozen_tags_of d1 in
  frozen_tags_of d2 = key
  /\ (forall metrics out,
        exists m1 m2 family1 family2,
          collect_fact (metrics, out) (v1, d1)
          = (m1, out ++ [(GroupRef key, family1)])
          /\ m1 !! key = Some family1
          /\ collect_fact (metrics, out) (v2, d2)
             = (m2, out ++ [(GroupRef key, family2)])
          /\ m2 !! key = Some family2)
  /\ Sorted leb_str (label_names key)
  /\ Permutation (label_names key) (PyDict.keys d1)
  /\ map Some (label_values key) = map (fun n => PyDict.get n d1) (label_names key)
  /\ map Some (label_values key) = map (fun n => PyDict.get n d2) (label_names key)
  /\ (forall metrics out,
        wf_metrics metrics = true ->
        exists metrics' first family labels1 labels2,
          fold_left collect_fact [(v1, d1); (v2, d2)] (metrics, out)
          = (metrics', out ++ [(GroupRef key, first); (GroupRef key, family)])
          /\ metrics' !! key = Some family
          /\ _labelnames family = label_names key
          /\ samples family
             = group_samples metrics key
               ++ [("ec2_number_instances", labels1, v1);
                   ("ec2_number_instances", labels2, v2)]
          /\ PyDict.same_mapping labels1
               (combine (label_names key) (label_values key))
          /\ PyDict.same_mapping labels2
               (combine (label_names key) (label_values key))
          /\ PyDict.same_mapping labels1 d1
          /\ PyDict.same_mapping labels2 d2).
Proof.
  intros H1 H2 Hs key. assert (Hk1 : frozen_tags_of d1 = key) by reflexivity.
  apply unique_keys_NoDup in H1. apply unique_keys_NoDup in H2.
  assert (Hk : frozen_tags_of d2 = key)
    by (symmetry; now apply frozen_tags_same).
  clearbody key.
  split; [exact Hk|]. split.
  { intros metrics out. unfold collect_fact. rewrite Hk, Hk1.
    do 4 eexists. split; [reflexivity|]. split; [apply lookup_insert_eq|].
    split; [reflexivity|apply lookup_insert_eq]. }
  split.
  { unfold label_names. apply (sorted_Sorted id). }
  split.
  { rewrite label_names_keys, <- Hk1. unfold PyDict.keys. apply Permutation_map.
    rewrite sorted_Permutation. now apply elements_frozen. }
  split; [rewrite <- Hk1; now apply label_values_lookup|].
  split; [rewrite <- Hk; now apply label_values_lookup|].
  intros metrics out Hwf.
  pose proof (family_for_ok metrics key Hwf) as Hok.
  unfold family_ok in Hok. apply andb_prop in Hok as [Hname Hnames].
  apply String.eqb_eq in Hname. apply bool_decide_eq_true in Hnames.
  assert (Hzip : PyDict.of_items (combine (label_names key) (label_values key))
                 = combine (label_names key) (label_values key)).
  { apply of_items_id. rewrite label_names_keys. unfold PyDict.keys at 2, label_values.
    rewrite combine_fst_snd, <- Hk1. now apply sorted_frozen_keys. }
  assert (Hsorted : combine (label_names key) (label_values key)
                    = sorted fst (elements key)).
  { rewrite label_names_keys. unfold PyDict.keys, label_values.
    apply combine_fst_snd. }
  cbn [fold_left]. rewrite collect_fact_eq, Hk1, collect_fact_eq, Hk.
  assert (Hfam : family_for
                   (<[key := add_metric (label_values key) v1 (family_for metrics key)]>
                      metrics) key
                 = add_metric (label_values key) v1 (family_for metrics key)).
  { unfold family_for at 1. now rewrite lookup_insert_eq. }
  rewrite Hfam, <- app_assoc.
  do 5 eexists. split; [reflexivity|]. split; [apply lookup_insert_eq|].
  split; [exact Hnames|]. split.
  { unfold add_metric. cbn [samples name _labelnames].
    rewrite Hname, Hnames, samples_family_for, <- app_assoc. reflexivity. }
  rewrite Hzip. split; [intros k; reflexivity|]. split; [intros k; reflexivity|].
  rewrite Hsorted. split; intros k.
  - apply get_Permutation; [rewrite <- Hk1; now apply sorted_frozen_keys|].
    rewrite sorted_Permutation, <- Hk1. now apply elements_frozen.
  - apply get_Permutation; [rewrite <- Hk; now apply sorted_frozen_keys|].
    rewrite sorted_Permutation, <- Hk. now apply elements_frozen.
Qed.

Lemma canonical_key_witness :
  frozen_tags_of [("zone", "europe"); ("ami", "ami-1"); ("env", "prod")]
  = frozen_tags_of [("env", "prod"); ("zone", "europe"); ("ami", "ami-1")]
  /\ label_names (frozen_tags_of [("env", "prod"); ("zone", "europe"); ("ami", "ami-1")])
     = ["ami"; "env"; "zone"]
  /\ label_values (frozen_tags_of [("env", "prod"); ("zone", "europe"); ("ami", "ami-1")])
     = ["ami-1"; "prod"; "europe"]
  /\ exists family labels1 labels2,
       fst (fold_left collect_fact
              [(1%Z, [("env", "prod"); ("zone", "europe"); ("ami", "ami-1")]);
               (1%Z, [("zone", "europe"); ("ami", "ami-1"); ("env", "prod")])]
              (∅, []))
       !! frozen_tags_of [("env", "prod"); ("zone", "europe"); ("ami", "ami-1")]
       = Some family
       /\ samples family
          = [("ec2_number_instances", labels1, 1%Z);
             ("ec2_number_instances", labels2, 1%Z)]
       /\ PyDict.same_mapping labels1
            [("env", "prod"); ("zone", "europe"); ("ami", "ami-1")]
       /\ PyDict.same_mapping labels2
            [("zone", "europe"); ("ami", "ami-1"); ("env", "prod")].
Proof.
  destruct (canonical_key 1 1
              [("env", "prod"); ("zone", "europe"); ("ami", "ami-1")]
              [("zone", "europe"); ("ami", "ami-1"); ("env", "prod")])
    as [Hk [_ [_ [_ [_ [_ Hsamples]]]]]];
    [reflexivity | reflexivity | reflexivity |].
  split; [exact Hk|]. split; [vm_compute; reflexivity|].
  split; [vm_compute; reflexivity|].
  destruct (Hsamples ∅ []) as
    [metrics' [first [family [labels1 [labels2 [Hf [Hm [_ [Hs [_ [_ [Hl1 Hl2]]]]]]]]]]]];
    [reflexivity|].
  exists family, labels1, labels2. rewrite Hf. cbn [fst].
  split; [exact Hm|]. split; [exact Hs|]. split; [exact Hl1|exact Hl2].
Defined.
